(** * apkparser: the archive catalog, the payload classifier and the
    checksum cache of [apkparser/__init__.py], embedded in Rocq.

    Python strings are modelled as [string]; a character is an [ascii], so
    names range over code points below 256.  In that range the Unicode
    decimal digits (what [\d] matches on a [str] pattern) are exactly
    ['0'] .. ['9'].  Python [bytes] are [list byte]; Python integers are
    [Z]; the dictionary [files_crc32] is a [gmap string Z]. *)

From Stdlib Require Import ZArith Bool Ascii String List Lia.
From Stdlib Require Strings.Byte.
From stdpp Require Import gmap strings list.

Local Open Scope string_scope.
Local Open Scope list_scope.

(** ** Regular expressions of module [re], as far as the source uses them *)

Module Re.

(** The syntax tree [re.compile] builds for the patterns of the source. *)
Inductive regex : Type :=
| Eps                          (* the empty pattern *)
| Bol                          (* ^  (no re.MULTILINE) *)
| Eol                          (* $  (no re.MULTILINE) *)
| Chr (c : ascii)              (* a literal character *)
| Dot                          (* .  (no re.DOTALL) *)
| Digit                        (* \d *)
| Cat (r1 r2 : regex)          (* r1 r2 *)
| Star (r : regex)             (* r*, greedy *)
| Plus (r : regex)             (* r+, greedy *)
| Opt (r : regex)              (* r?, greedy *)
| Group (r : regex).           (* ( r ), a capturing group *)

Definition newline : ascii := "010"%char.

Definition is_digit (c : ascii) : bool :=
  (48 <=? nat_of_ascii c)%nat && (nat_of_ascii c <=? 57)%nat.

(** [$] without MULTILINE: at the end of the string, or just before a
    newline that is the last character of the string. *)
Definition at_end (s : string) : bool :=
  match s with
  | EmptyString => true
  | String c EmptyString => Ascii.eqb c newline
  | String _ (String _ _) => false
  end.

(** The continuation [k] receives the position and the rest of the subject
    after the pattern matched. *)
Definition cont : Type := nat -> string -> bool.

(** Repetition of [body]: greedy, one more iteration first, then the
    continuation.  An iteration that consumes nothing is not repeated
    (as in [re]); [fuel] bounds the iterations by the length of the rest. *)
Fixpoint star_loop (body : nat -> string -> cont -> bool) (k : cont)
    (fuel : nat) (pos : nat) (s : string) : bool :=
  match fuel with
  | O => k pos s
  | S fuel' =>
      body pos s (fun pos' s' =>
        (String.length s' <? String.length s)%nat
        && star_loop body k fuel' pos' s')
      || k pos s
  end.

(** Backtracking matcher: does [r] match at position [pos], where the rest
    of the subject is [s], so that the continuation accepts what follows? *)
Fixpoint rmatch (r : regex) (pos : nat) (s : string) (k : cont) : bool :=
  match r with
  | Eps => k pos s
  | Bol => Nat.eqb pos 0 && k pos s
  | Eol => at_end s && k pos s
  | Chr c =>
      match s with
      | String c' s' => Ascii.eqb c c' && k (S pos) s'
      | EmptyString => false
      end
  | Dot =>
      match s with
      | String c' s' => negb (Ascii.eqb c' newline) && k (S pos) s'
      | EmptyString => false
      end
  | Digit =>
      match s with
      | String c' s' => is_digit c' && k (S pos) s'
      | EmptyString => false
      end
  | Cat r1 r2 => rmatch r1 pos s (fun pos' s' => rmatch r2 pos' s' k)
  | Star r' => star_loop (rmatch r') k (String.length s) pos s
  | Plus r' =>
      rmatch r' pos s (fun pos' s' =>
        star_loop (rmatch r') k (String.length s') pos' s')
  | Opt r' => rmatch r' pos s k || k pos s
  | Group r' => rmatch r' pos s k
  end.

Definition accept : cont := fun _ _ => true.

(** Two continuations that give the same answers. *)
Definition cont_eq (k1 k2 : cont) : Prop := forall p t, k1 p t = k2 p t.

(** [pattern.match(s)]: a match that starts at index 0.  The result is the
    truth value of the returned object ([None] is false, a match object is
    true), which is all the source looks at. *)
Definition re_match (r : regex) (s : string) : bool := rmatch r 0 s accept.

(** [pattern.search(s)]: the first index, from 0 up to [len(s)], at which
    the pattern matches. *)
Fixpoint search_from (r : regex) (pos : nat) (s : string) : bool :=
  rmatch r pos s accept
  || match s with
     | EmptyString => false
     | String _ s' => search_from r (S pos) s'
     end.

Definition re_search (r : regex) (s : string) : bool := search_from r 0 s.

(** A run of literal characters. *)
Fixpoint lit (w : string) : regex :=
  match w with
  | EmptyString => Eps
  | String c w' => Cat (Chr c) (lit w')
  end.

End Re.

Import Re.

(** The pattern compiled in [get_dex_names], token by token:
    [^] [classes] [(] [\d] [*] [)] [.] [dex] [$].  The dot is not escaped. *)
Definition dexre_names : regex :=
  Cat Bol (Cat (lit "classes") (Cat (Group (Star Digit))
    (Cat Dot (Cat (lit "dex") Eol)))).

(** The pattern compiled in [is_multidex], token by token:
    [^] [classes] [(] [\d] [+] [)] [?] [.] [dex] [$]. *)
Definition dexre_multi : regex :=
  Cat Bol (Cat (lit "classes") (Cat (Opt (Group (Plus Digit)))
    (Cat Dot (Cat (lit "dex") Eol)))).

(** ** Exceptions and results *)

(** The exception classes of the module ([Error], [FileNotPresent],
    [BrokenAPKError]), the built-in ones the code can raise, and what the
    structural parser raises. *)
Inductive exn : Type :=
| Error                              (* class Error(Exception) *)
| FileNotPresent (filename : string) (* class FileNotPresent(Error) *)
| BrokenAPKError                     (* class BrokenAPKError(Error) *)
| KeyError (key : string)
| NameError (name : string)          (* a global name that is not bound *)
| AttributeError (attr : string)     (* an attribute the object lacks *)
| MalformedEntry (filename : string) (* the parser cannot decompress an entry *)
| ParserError (msg : string).        (* the parser cannot read the container *)

Inductive result (A : Type) : Type :=
| Return (a : A)
| Raise (e : exn).

Arguments Return {A} a.
Arguments Raise {A} e.

Definition bytes : Type := list Byte.byte.

(** ** The structural parser ([zip/headers.py]) *)

(** Modelled from the spec: [headers.ZipEntry] is not among the source
    files.  The spec (sections 3 and 6) gives an entry a name, a declared
    checksum and a payload that is decompressed on demand, and has the
    parser enumerate the names in the order it found them, read by name
    (failing differently for an absent name and for corrupt data) and give
    the declared checksum by name.  The code catches [KeyError] for the
    absent name. *)
Record ZipInfo : Type := {
  zi_filename : string;
  crc32_of_uncompressed_data : Z;
  zi_data : option bytes            (* [None]: the compressed data is corrupt *)
}.

Record ZipEntry : Type := { zip_index : list ZipInfo }.

Definition zip_lookup (z : ZipEntry) (name : string) : option ZipInfo :=
  List.find (fun e => String.eqb (zi_filename e) name) (zip_index z).

(** [zip.namelist()] *)
Definition namelist (z : ZipEntry) : list string :=
  List.map zi_filename (zip_index z).

(** [zip.read(name)] *)
Definition zip_read (z : ZipEntry) (name : string) : result bytes :=
  match zip_lookup z name with
  | None => Raise (KeyError name)
  | Some e =>
      match zi_data e with
      | Some b => Return b
      | None => Raise (MalformedEntry name)
      end
  end.

(** [zip.infolist()[name].crc32_of_uncompressed_data] *)
Definition infolist_crc32 (z : ZipEntry) (name : string) : result Z :=
  match zip_lookup z name with
  | None => Raise (KeyError name)
  | Some e => Return (crc32_of_uncompressed_data e)
  end.

(** ** class APK *)

(** [io.BytesIO]: a buffer and a read position. *)
Record BytesIO : Type := { bio_buf : bytes; bio_pos : nat }.

(** [raw.read()]: everything from the position on; the position moves to
    the end. *)
Definition bio_read (raw : BytesIO) : bytes * BytesIO :=
  (skipn (bio_pos raw) (bio_buf raw),
   {| bio_buf := bio_buf raw;
      bio_pos := Nat.max (bio_pos raw) (List.length (bio_buf raw)) |}).

(** [raw.seek(0)] *)
Definition bio_seek0 (raw : BytesIO) : BytesIO :=
  {| bio_buf := bio_buf raw; bio_pos := 0 |}.

(** The attributes of an [APK] object that the methods below read or
    write.  ([__init__] also sets [xml], [axml], [arsc], [package],
    [androidversion], the permission lists, the signing fields and
    [_files] to empty values; no method of the class reads them.) *)
Record APK : Type := {
  valid_apk : bool;
  files_crc32 : gmap string Z;
  _sha256 : string;
  filename : string;
  zip : ZipEntry
}.

Definition set_files_crc32 (self : APK) (m : gmap string Z) : APK :=
  {| valid_apk := valid_apk self;
     files_crc32 := m;
     _sha256 := _sha256 self;
     filename := filename self;
     zip := zip self |}.

Section Opener.

(** [hashlib.sha256(data).hexdigest()] and [headers.ZipEntry.parse(raw,
    True)] come from outside the source files. *)
Variable sha256_hexdigest : bytes -> string.
Variable ZipEntry_parse : BytesIO -> bool -> result ZipEntry.

(** [APK.__init__], as the value the constructor call [APK(raw)] has:
    the object, or the exception that left [__init__]. *)
Definition APK_init (raw : BytesIO) : result APK :=
  let '(data, raw1) := bio_read raw in
  let digest := sha256_hexdigest data in
  let raw2 := bio_seek0 raw1 in
  match ZipEntry_parse raw2 true with
  | Raise e => Raise e
  | Return z =>
      Return {| valid_apk := false;
                files_crc32 := ∅;
                _sha256 := digest;
                filename := "raw_apk_sha256:" ++ digest;
                zip := z |}
  end.

End Opener.

(** [get_files] *)
Definition get_files (self : APK) : list string := namelist (zip self).

(** [get_file]: [KeyError] becomes [FileNotPresent]; anything else the
    parser raises goes through. *)
Definition get_file (self : APK) (name : string) : result bytes :=
  match zip_read (zip self) name with
  | Raise (KeyError _) => Raise (FileNotPresent name)
  | r => r
  end.

(** [get_dex] *)
Definition get_dex (self : APK) : result bytes :=
  match get_file self "classes.dex" with
  | Raise (FileNotPresent _) => Return []
  | r => r
  end.

(** [get_dex_names]: the names the [filter] object yields, in order. *)
Definition get_dex_names (self : APK) : list string :=
  List.filter (fun x => re_match dexre_names x) (get_files self).

(** [is_multidex] *)
Definition is_multidex (self : APK) : bool :=
  (1 <? List.length
          (List.filter (fun instance => re_search dexre_multi instance)
                       (get_files self)))%nat.

(** ** Names the module looks up but does not bind *)

(** The module imports [io], [re], [hashlib], four [typing] names, [LOGGER]
    and [headers], and defines constants and three classes.  [_get_crc32]
    calls [crc32] and [logger.error], and [get_files_information] calls
    [self.get_files_types]: none of the three is bound by the source.
    Python resolves such a name when the statement runs, and a failed
    lookup raises [NameError] (for an attribute, [AttributeError]).  The
    bindings are a parameter, so that the theorems also speak about a
    program that supplies them; [module_namespace] is the source as it is. *)
Record Namespace : Type := {
  crc32 : option (bytes -> Z);
  logger : option unit;                       (* [Some tt]: a logger object *)
  get_files_types : option (gmap string string)
}.

Definition module_namespace : Namespace :=
  {| crc32 := None; logger := None; get_files_types := None |}.

(** ** The checksum cache: state and effects *)

(** What the methods do to the outside: reads through the parser, checksum
    computations, and messages to the logger.  [EvLogError] stands for the
    message that [_get_crc32] formats from the file name, the declared and
    the calculated checksum. *)
Inductive event : Type :=
| EvRead (name : string)
| EvCrc32 (buffer : bytes)
| EvLogError (name : string) (declared calculated : Z).

Record state : Type := { self : APK; trace : list event }.

Definition M (A : Type) : Type := state -> result A * state.

Definition ret {A} (a : A) : M A := fun st => (Return a, st).

Definition raise {A} (e : exn) : M A := fun st => (Raise e, st).

Definition bind {A B} (m : M A) (k : A -> M B) : M B :=
  fun st =>
    match m st with
    | (Return a, st') => k a st'
    | (Raise e, st') => (Raise e, st')
    end.

Notation "x <- m ;; k" := (bind m (fun x => k))
  (at level 100, m at next level, right associativity).
Notation "m ;; k" := (bind m (fun _ => k))
  (at level 100, right associativity).

Definition lift {A} (r : result A) : M A := fun st => (r, st).

Definition get_self : M APK := fun st => (Return (self st), st).

Definition emit (ev : event) : M unit :=
  fun st => (Return tt, {| self := self st; trace := trace st ++ [ev] |}).

(** [self.files_crc32[k] = v] *)
Definition store_crc32 (k : string) (v : Z) : M unit :=
  fun st =>
    (Return tt,
     {| self := set_files_crc32 (self st) (<[k := v]> (files_crc32 (self st)));
        trace := trace st |}).

(** Looking up a global name, or an attribute of [self]. *)
Definition load_global {A} (name : string) (binding : option A) : M A :=
  match binding with
  | Some v => ret v
  | None => raise (NameError name)
  end.

Definition load_attr {A} (attr : string) (binding : option A) : M A :=
  match binding with
  | Some v => ret v
  | None => raise (AttributeError attr)
  end.

(** [d[k]] on a dictionary *)
Definition getitem {V} (d : gmap string V) (k : string) : result V :=
  match d !! k with
  | Some v => Return v
  | None => Raise (KeyError k)
  end.

(** [_get_crc32] *)
Definition _get_crc32 (ns : Namespace) (name : string) : M bytes :=
  self0 <- get_self ;;
  emit (EvRead name) ;;
  buffer <- lift (zip_read (zip self0) name) ;;
  match files_crc32 self0 !! name with
  | Some _ => ret tt
  | None =>
      f <- load_global "crc32" (crc32 ns) ;;
      emit (EvCrc32 buffer) ;;
      store_crc32 name (f buffer) ;;
      self1 <- get_self ;;
      calculated <- lift (getitem (files_crc32 self1) name) ;;
      declared <- lift (infolist_crc32 (zip self1) name) ;;
      if negb (calculated =? declared)%Z then
        load_global "logger" (logger ns) ;;
        declared' <- lift (infolist_crc32 (zip self1) name) ;;
        calculated' <- lift (getitem (files_crc32 self1) name) ;;
        emit (EvLogError name declared' calculated')
      else ret tt
  end ;;
  ret buffer.

Ltac run := unfold bind, ret, raise, lift, get_self, emit, store_crc32,
  load_global, load_attr; simpl.

(** A [for] loop over a list. *)
Fixpoint for_each {A} (l : list A) (body : A -> M unit) : M unit :=
  match l with
  | [] => ret tt
  | x :: l' => body x ;; for_each l' body
  end.

(** [get_files_crc32] *)
Definition get_files_crc32 (ns : Namespace) : M (gmap string Z) :=
  self0 <- get_self ;;
  (if decide (files_crc32 self0 = ∅) then
     for_each (get_files self0) (fun i => _get_crc32 ns i ;; ret tt)
   else ret tt) ;;
  self1 <- get_self ;;
  ret (files_crc32 self1).

(** The tuple that one iteration of the loop of [get_files_information]
    builds, left to right. *)
Definition report_entry (ns : Namespace) (k : string)
    : M (string * string * Z) :=
  types <- load_attr "get_files_types" (get_files_types ns) ;;
  t <- lift (getitem types k) ;;
  crcs <- get_files_crc32 ns ;;
  c <- lift (getitem crcs k) ;;
  ret (k, t, c).

(** The generator object that [get_files_information] returns. *)
Inductive generator : Type :=
| Created                          (* no statement of the body has run *)
| Suspended (rest : list string)   (* at the [yield], names still to come *)
| Finished.                        (* returned, or left by an exception *)

Inductive step (A : Type) : Type :=
| Yield (a : A)
| StopIteration
| Raised (e : exn).

Arguments Yield {A} a.
Arguments StopIteration {A}.
Arguments Raised {A} e.

(** [next(g)] *)
Definition gen_next (ns : Namespace) (g : generator) (st : state)
    : step (string * string * Z) * generator * state :=
  let todo :=
    match g with
    | Created => get_files (self st)
    | Suspended rest => rest
    | Finished => []
    end in
  match todo with
  | [] => (StopIteration, Finished, st)
  | k :: rest =>
      match report_entry ns k st with
      | (Return t, st') => (Yield t, Suspended rest, st')
      | (Raise e, st') => (Raised e, Finished, st')
      end
  end.

(** What a consumer that pulls until the generator stops receives: the
    tuples, and the exception if one ended the iteration. *)
Fixpoint gen_drain (ns : Namespace) (todo : list string) (st : state)
    : list (string * string * Z) * option exn * state :=
  match todo with
  | [] => ([], None, st)
  | k :: rest =>
      match report_entry ns k st with
      | (Return t, st') =>
          let '(ts, e, st'') := gen_drain ns rest st' in (t :: ts, e, st'')
      | (Raise e, st') => ([], Some e, st')
      end
  end.

(** [list(self.get_files_information())] *)
Definition get_files_information (ns : Namespace) (st : state)
    : list (string * string * Z) * option exn * state :=
  gen_drain ns (get_files (self st)) st.

(** The names a generator still has to report: [next] takes them from
    [get_files] when the body starts and from the loop afterwards. *)
Definition pending (g : generator) (st : state) : list string :=
  match g with
  | Created => get_files (self st)
  | Suspended rest => rest
  | Finished => []
  end.

(** A consumer that calls [next] until the generator stops, at most
    [fuel] times. *)
Fixpoint pull_all (ns : Namespace) (fuel : nat) (g : generator) (st : state)
    : list (string * string * Z) * option exn * state :=
  match fuel with
  | O => ([], None, st)
  | S fuel' =>
      match gen_next ns g st with
      | (Yield t, g', st') =>
          let '(ts, e, st'') := pull_all ns fuel' g' st' in (t :: ts, e, st'')
      | (StopIteration, _, st') => ([], None, st')
      | (Raised e, _, st') => ([], Some e, st')
      end
  end.

(** [st'] is [st] after some calls: same archive, a cache that kept all
    it had. *)
Definition extends (st st' : state) : Prop :=
  zip (self st') = zip (self st)
  /\ files_crc32 (self st) ⊆ files_crc32 (self st').

(** ** The naming convention in the spec's words *)

Fixpoint strip_prefix (p s : string) : option string :=
  match p, s with
  | EmptyString, _ => Some s
  | String a p', String b s' =>
      if Ascii.eqb a b then strip_prefix p' s' else None
  | String _ _, EmptyString => None
  end.

Fixpoint all_digits (s : string) : bool :=
  match s with
  | EmptyString => true
  | String c s' => is_digit c && all_digits s'
  end.

(** Decimal digits, none or more, and then exactly [suffix]. *)
Fixpoint digits_then (suffix s : string) : bool :=
  String.eqb s suffix
  || match s with
     | String c s' => is_digit c && digits_then suffix s'
     | EmptyString => false
     end.

(** The spec's [is_primary_payload]: the full name is [classes], then
    optionally decimal digits, then the literal [.dex]. *)
Definition is_primary_payload_spec (name : string) : bool :=
  match strip_prefix "classes" name with
  | Some rest => digits_then ".dex" rest
  | None => false
  end.

(** ** Counting what a trace holds *)

Definition is_read_of (name : string) (ev : event) : bool :=
  match ev with
  | EvRead n => String.eqb n name
  | _ => false
  end.

Definition is_crc32_call (ev : event) : bool :=
  match ev with
  | EvCrc32 _ => true
  | _ => false
  end.

Definition is_log (ev : event) : bool :=
  match ev with
  | EvLogError _ _ _ => true
  | _ => false
  end.

Definition count_reads (name : string) (tr : list event) : nat :=
  List.length (List.filter (is_read_of name) tr).

Definition count_crc32 (tr : list event) : nat :=
  List.length (List.filter is_crc32_call tr).

Definition count_logs (tr : list event) : nat :=
  List.length (List.filter is_log tr).

(** ** Example archives and bindings *)

(** CRC-32 as [zlib.crc32] computes it, bit by bit. *)
Definition crc32_shift (crc : Z) : Z :=
  if Z.testbit crc 0 then Z.lxor (Z.shiftr crc 1) 0xEDB88320%Z
  else Z.shiftr crc 1.

Definition crc32_update (crc : Z) (b : Byte.byte) : Z :=
  Nat.iter 8 crc32_shift (Z.lxor crc (Z.of_N (Byte.to_N b))).

Definition zlib_crc32 (data : bytes) : Z :=
  Z.lxor (fold_left crc32_update data 0xFFFFFFFF%Z) 0xFFFFFFFF%Z.

(** A namespace that binds the three names, as a program would that
    imports [crc32] from [zlib], names its logger [logger] and gives the
    class a [get_files_types] method returning [types]. *)
Definition bound_namespace (types : gmap string string) : Namespace :=
  {| crc32 := Some zlib_crc32; logger := Some tt;
     get_files_types := Some types |}.

Definition new_apk (z : ZipEntry) : APK :=
  {| valid_apk := false; files_crc32 := ∅; _sha256 := "";
     filename := "raw_apk_sha256:"; zip := z |}.

Definition fresh (z : ZipEntry) : state :=
  {| self := new_apk z; trace := [] |}.

(** An archive with the given names, every payload empty and every
    declared checksum the right one. *)
Definition zip_of_names (names : list string) : ZipEntry :=
  {| zip_index :=
       List.map (fun n => {| zi_filename := n;
                             crc32_of_uncompressed_data := 0;
                             zi_data := Some [] |}) names |}.

(** Two entries: ["a"] declares a checksum that its payload does not
    have, ["b"] declares the right one. *)
Definition zip_mismatch : ZipEntry :=
  {| zip_index :=
       [ {| zi_filename := "a"; crc32_of_uncompressed_data := 5;
            zi_data := Some [Byte.x61] |};
         {| zi_filename := "b"; crc32_of_uncompressed_data := 0;
            zi_data := Some [] |} ] |}.

(** Two entries, the second one with corrupt compressed data. *)
Definition zip_corrupt : ZipEntry :=
  {| zip_index :=
       [ {| zi_filename := "a"; crc32_of_uncompressed_data := 0;
            zi_data := Some [] |};
         {| zi_filename := "b"; crc32_of_uncompressed_data := 0;
            zi_data := None |} ] |}.

(** An object over [zip_mismatch] whose cache holds a checksum for ["a"]
    and none for ["b"]. *)
Definition partial_state : state :=
  {| self := set_files_crc32 (new_apk zip_mismatch)
               (<["a" := 3904355907%Z]> ∅);
     trace := [] |}.

Definition types_ab : gmap string string :=
  <["a" := "data"]> (<["b" := "data"]> ∅).

(** A parser that rejects every input, and a digest that is constant. *)
Definition failing_parse (raw : BytesIO) (flag : bool) : result ZipEntry :=
  Raise (ParserError "bad end of central directory").

Definition parse_names (names : list string) (raw : BytesIO) (flag : bool)
    : result ZipEntry :=
  Return (zip_of_names names).

Definition constant_digest (data : bytes) : string := "e3b0c442".

(** ** The other methods, and clients of the object *)

(** [get_all_dex]: what a consumer of the generator receives, the bytes
    of the files named by [get_dex_names], in order, and the exception if
    one ended the iteration. *)
Fixpoint all_dex_from (self : APK) (names : list string)
    : list bytes * option exn :=
  match names with
  | [] => ([], None)
  | dex_name :: rest =>
      match get_file self dex_name with
      | Return b =>
          let '(bs, e) := all_dex_from self rest in (b :: bs, e)
      | Raise e => ([], Some e)
      end
  end.

Definition get_all_dex (self : APK) : list bytes * option exn :=
  all_dex_from self (get_dex_names self).

(** The calls a client can make on the checksum side of the object, and
    the state they leave, whether they return or raise. *)
Inductive call : Type :=
| Call_get_crc32 (name : string)
| Call_get_files_crc32
| Call_get_files_information.

Definition after (ns : Namespace) (c : call) (st : state) : state :=
  match c with
  | Call_get_crc32 name => snd (_get_crc32 ns name st)
  | Call_get_files_crc32 => snd (get_files_crc32 ns st)
  | Call_get_files_information => snd (get_files_information ns st)
  end.

Definition run (ns : Namespace) (calls : list call) (st : state) : state :=
  fold_left (fun s c => after ns c s) calls st.

(** The object as [__init__] leaves its cache, before any call. *)
Definition start (apk : APK) : state :=
  {| self := set_files_crc32 apk ∅; trace := [] |}.

Definition is_read (ev : event) : bool :=
  match ev with
  | EvRead _ => true
  | _ => false
  end.

Definition is_log_of (name : string) (ev : event) : bool :=
  match ev with
  | EvLogError n _ _ => String.eqb n name
  | _ => false
  end.

Definition count_all_reads (tr : list event) : nat :=
  List.length (List.filter is_read tr).

Definition count_logs_of (name : string) (tr : list event) : nat :=
  List.length (List.filter (is_log_of name) tr).

(** A diagnostic in the trace is genuine for the object [apk]: it names
    the checksum the index declares and the different one in the cache. *)
Definition genuine_log (apk : APK) (ev : event) : Prop :=
  match ev with
  | EvLogError n declared calculated =>
      infolist_crc32 (zip apk) n = Return declared
      /\ files_crc32 apk !! n = Some calculated
      /\ calculated <> declared
  | _ => True
  end.

(** Every entry of the index can be decompressed. *)
Definition all_readable (z : ZipEntry) : bool :=
  forallb (fun e => match zi_data e with Some _ => true | None => false end)
          (zip_index z).

(** The payload of the entry that [zip.read] finds under a name. *)
Definition payload (z : ZipEntry) (name : string) : bytes :=
  match zip_read z name with
  | Return b => b
  | Raise _ => []
  end.

(** What the cache holds under [k] is the checksum of the entry. *)
Definition computed (ns : Namespace) (z : ZipEntry) (k : string) (v : Z)
    : Prop :=
  exists f buf,
    crc32 ns = Some f /\ zip_read z k = Return buf /\ v = f buf.

(** At most one diagnostic per name, none for a name the cache lacks,
    and only genuine ones. *)
Definition logs_inv (st : state) : Prop :=
  (forall n,
     count_logs_of n (trace st) <= 1
     /\ (files_crc32 (self st) !! n = None -> count_logs_of n (trace st) = 0))
  /\ Forall (genuine_log (self st)) (trace st).

(** Every name of the list has a type in [types], or a checksum in
    [cache]. *)
Definition all_typed (types : gmap string string) (names : list string)
    : bool :=
  forallb (fun n => match types !! n with Some _ => true | None => false end)
          names.

Definition all_cached (cache : gmap string Z) (names : list string) : bool :=
  forallb (fun n => match cache !! n with Some _ => true | None => false end)
          names.

(** The tuple the report yields for a name, from the types and the
    cache. *)
Definition tuple_of (types : gmap string string) (cache : gmap string Z)
    (n : string) : string * string * Z :=
  (n, default "" (types !! n), default 0%Z (cache !! n)).

(** * Properties *)

(** ** The matcher *)

Lemma star_loop_ext body k1 k2 :
  (forall pos s c1 c2, cont_eq c1 c2 -> body pos s c1 = body pos s c2) ->
  cont_eq k1 k2 ->
  forall fuel pos s, star_loop body k1 fuel pos s = star_loop body k2 fuel pos s.
Proof.
  intros Hbody Hk fuel. induction fuel as [|fuel IH]; intros pos s; simpl.
  - apply Hk.
  - rewrite (Hk pos s). f_equal. apply Hbody. intros p t. now rewrite IH.
Qed.

(** The matcher only asks its continuation for values. *)
Lemma rmatch_ext r :
  forall pos s k1 k2, cont_eq k1 k2 -> rmatch r pos s k1 = rmatch r pos s k2.
Proof.
  induction r; intros pos s k1 k2 Hk; simpl;
    try (destruct s; [reflexivity | now rewrite (Hk _ _)]);
    try (now rewrite (Hk pos s)).
  - apply IHr1. intros p t. now apply IHr2.
  - now apply star_loop_ext.
  - apply IHr. intros p t. now apply star_loop_ext.
  - rewrite (Hk pos s). f_equal. now apply IHr.
  - now apply IHr.
Qed.

(** [(\d* )] and [(\d+)?] accept the same runs of digits. *)
Lemma star_digit_opt_plus pos s k :
  rmatch (Group (Star Digit)) pos s k
  = rmatch (Opt (Group (Plus Digit))) pos s k.
Proof.
  destruct s as [|c s]; simpl; [reflexivity|].
  replace (String.length s <? S (String.length s))%nat with true
    by (symmetry; apply Nat.ltb_lt; lia).
  reflexivity.
Qed.

Lemma rmatch_Cat_tail r r2 r2' :
  (forall pos s k, rmatch r2 pos s k = rmatch r2' pos s k) ->
  forall pos s k, rmatch (Cat r r2) pos s k = rmatch (Cat r r2') pos s k.
Proof. intros H pos s k. simpl. apply rmatch_ext. intros p t. apply H. Qed.

Lemma rmatch_Cat_head r1 r1' r :
  (forall pos s k, rmatch r1 pos s k = rmatch r1' pos s k) ->
  forall pos s k, rmatch (Cat r1 r) pos s k = rmatch (Cat r1' r) pos s k.
Proof. intros H pos s k. simpl. apply H. Qed.

Lemma dexre_rmatch_agree pos s k :
  rmatch dexre_names pos s k = rmatch dexre_multi pos s k.
Proof.
  unfold dexre_names, dexre_multi.
  revert pos s k. do 2 apply rmatch_Cat_tail. apply rmatch_Cat_head.
  apply star_digit_opt_plus.
Qed.

(** A pattern that starts with [^] matches at no index but 0. *)
Lemma search_from_Bol r pos s : search_from (Cat Bol r) (S pos) s = false.
Proof.
  revert pos. induction s as [|c s IH]; intros pos; simpl; [reflexivity|].
  apply IH.
Qed.

Lemma re_search_Bol r s : re_search (Cat Bol r) s = re_match (Cat Bol r) s.
Proof.
  unfold re_search, re_match. destruct s as [|c s]; simpl.
  - now rewrite orb_false_r.
  - rewrite (search_from_Bol r 0 s). now rewrite orb_false_r.
Qed.

Lemma dexre_match_search name :
  re_match dexre_names name = re_search dexre_multi name.
Proof.
  unfold dexre_multi at 1. rewrite re_search_Bol. apply dexre_rmatch_agree.
Qed.

(** The names the spec's wording accepts are accepted by the pattern. *)
Lemma strip_prefix_Some p : forall s rest,
  strip_prefix p s = Some rest -> s = p +:+ rest.
Proof.
  induction p as [|a p IH]; intros s rest H.
  - simpl in H. now inversion H.
  - destruct s as [|b s]; simpl in H; [discriminate|].
    destruct (Ascii.eqb a b) eqn:E; [|discriminate].
    apply Ascii.eqb_eq in E. subst b. change (String a s = String a (p +:+ rest)).
    f_equal. now apply IH.
Qed.

Lemma rmatch_lit w : forall pos rest k,
  rmatch (lit w) pos (w +:+ rest) k = k (pos + String.length w)%nat rest.
Proof.
  induction w as [|c w IH]; intros pos rest k.
  - simpl. now rewrite Nat.add_0_r.
  - change (String c w +:+ rest) with (String c (w +:+ rest)).
    cbn [lit rmatch String.length]. rewrite Ascii.eqb_refl. simpl andb.
    rewrite IH. f_equal. lia.
Qed.

Lemma digits_then_cons suffix c s :
  digits_then suffix (String c s)
  = String.eqb (String c s) suffix || (is_digit c && digits_then suffix s).
Proof. reflexivity. Qed.

Lemma star_digits_then k : forall s pos,
  digits_then ".dex" s = true ->
  (forall p, k p ".dex" = true) ->
  star_loop (rmatch Digit) k (String.length s) pos s = true.
Proof.
  induction s as [|c s IH]; intros pos H Hk.
  - discriminate.
  - rewrite digits_then_cons in H.
    apply orb_true_iff in H. destruct H as [H|H].
    + apply String.eqb_eq in H. rewrite H. simpl. apply Hk.
    + apply andb_true_iff in H. destruct H as [Hc Hs].
      cbn [String.length star_loop rmatch]. rewrite Hc.
      replace (String.length s <? S (String.length s))%nat with true
        by (symmetry; apply Nat.ltb_lt; lia).
      simpl. now rewrite IH.
Qed.

Lemma spec_names_accepted name :
  is_primary_payload_spec name = true -> re_match dexre_names name = true.
Proof.
  unfold is_primary_payload_spec. intros H.
  destruct (strip_prefix "classes" name) as [rest|] eqn:E; [|discriminate].
  apply strip_prefix_Some in E. subst name.
  unfold re_match, dexre_names.
  change (rmatch (lit "classes") 0 ("classes" +:+ rest)
            (fun p t => rmatch (Cat (Group (Star Digit))
                          (Cat Dot (Cat (lit "dex") Eol))) p t accept) = true).
  rewrite rmatch_lit.
  change (star_loop (rmatch Digit)
            (fun p t => rmatch (Cat Dot (Cat (lit "dex") Eol)) p t accept)
            (String.length rest) (0 + String.length "classes") rest = true).
  apply star_digits_then; [exact H|]. intros p. reflexivity.
Qed.

(** *** The names the pattern of [get_dex_names] accepts *)

Lemma rmatch_lit_inv w : forall pos s k,
  rmatch (lit w) pos s k = true ->
  exists rest, s = w +:+ rest /\ k (pos + String.length w)%nat rest = true.
Proof.
  induction w as [|c w IH]; intros pos s k H.
  - exists s. split; [reflexivity|]. simpl in *. now rewrite Nat.add_0_r.
  - cbn [lit rmatch] in H. destruct s as [|c' s]; [discriminate|].
    apply andb_true_iff in H. destruct H as [Hc H].
    apply Ascii.eqb_eq in Hc. subst c'.
    apply IH in H. destruct H as [rest [-> Hk]].
    exists rest. split; [reflexivity|].
    cbn [String.length]. now replace (pos + S (String.length w))%nat
      with (S pos + String.length w)%nat by lia.
Qed.

Lemma star_digit_inv k : forall fuel pos s,
  star_loop (rmatch Digit) k fuel pos s = true ->
  exists ds rest,
    s = ds +:+ rest /\ all_digits ds = true
    /\ k (pos + String.length ds)%nat rest = true.
Proof.
  induction fuel as [|fuel IH]; intros pos s H; cbn [star_loop] in H.
  - exists "", s. simpl. now rewrite Nat.add_0_r.
  - apply orb_true_iff in H. destruct H as [H|H].
    + cbn [rmatch] in H. destruct s as [|c s]; [discriminate|].
      apply andb_true_iff in H. destruct H as [Hc H].
      apply andb_true_iff in H. destruct H as [_ H].
      apply IH in H. destruct H as [ds [rest [-> [Hds Hk]]]].
      exists (String c ds), rest. split; [reflexivity|]. split.
      * simpl. now rewrite Hc.
      * cbn [String.length]. now replace (pos + S (String.length ds))%nat
          with (S pos + String.length ds)%nat by lia.
    + exists "", s. simpl. now rewrite Nat.add_0_r.
Qed.

Lemma star_digit_complete k rest : forall ds pos,
  all_digits ds = true ->
  k (pos + String.length ds)%nat rest = true ->
  star_loop (rmatch Digit) k (String.length (ds +:+ rest)) pos (ds +:+ rest)
  = true.
Proof.
  induction ds as [|c ds IH]; intros pos Hds Hk.
  - simpl in Hk. rewrite Nat.add_0_r in Hk.
    change ("" +:+ rest) with rest.
    destruct (String.length rest); cbn [star_loop]; [exact Hk|].
    rewrite Hk. apply orb_true_r.
  - simpl in Hds. apply andb_true_iff in Hds. destruct Hds as [Hc Hds].
    change (String c ds +:+ rest) with (String c (ds +:+ rest)).
    cbn [String.length star_loop rmatch]. rewrite Hc.
    replace (String.length (ds +:+ rest) <? S (String.length (ds +:+ rest)))%nat
      with true by (symmetry; apply Nat.ltb_lt; lia).
    rewrite IH; [reflexivity | exact Hds |].
    cbn [String.length] in Hk. now replace (S pos + String.length ds)%nat
      with (pos + S (String.length ds))%nat by lia.
Qed.

Lemma at_end_iff s : at_end s = true <-> s = "" \/ s = String newline "".
Proof.
  destruct s as [|c [|c' s]]; simpl.
  - tauto.
  - rewrite Ascii.eqb_eq. split; [intros ->; tauto|].
    intros [H|H]; [discriminate | now inversion H].
  - split; [discriminate|]. intros [H|H]; discriminate.
Qed.

(** The pattern of [get_dex_names] accepts exactly: [classes], digits,
    any one character but a newline, [dex], and then the end of the name
    or one final newline. *)
Lemma dexre_names_language name :
  re_match dexre_names name = true
  <-> exists ds c tail,
        name = "classes" +:+ ds +:+ String c ("dex" +:+ tail)
        /\ all_digits ds = true
        /\ c <> newline
        /\ (tail = "" \/ tail = String newline "").
Proof.
  unfold re_match, dexre_names. split.
  - intros H.
    change (rmatch (lit "classes") 0 name
              (fun p t => rmatch (Cat (Group (Star Digit))
                            (Cat Dot (Cat (lit "dex") Eol))) p t accept)
            = true) in H.
    apply rmatch_lit_inv in H. destruct H as [r1 [-> H]].
    change (star_loop (rmatch Digit)
              (fun p t => rmatch (Cat Dot (Cat (lit "dex") Eol)) p t accept)
              (String.length r1) (0 + String.length "classes") r1 = true)
      in H.
    apply star_digit_inv in H. destruct H as [ds [r2 [-> [Hds H]]]].
    cbn [rmatch] in H. destruct r2 as [|c r3]; [discriminate|].
    apply andb_true_iff in H. destruct H as [Hc H].
    change (rmatch (lit "dex") (S (0 + String.length "classes"
                                   + String.length ds)) r3
              (fun p t => rmatch Eol p t accept) = true) in H.
    apply rmatch_lit_inv in H. destruct H as [tail [-> H]].
    cbn [rmatch] in H. apply andb_true_iff in H. destruct H as [He _].
    exists ds, c, tail. split; [reflexivity|]. split; [exact Hds|]. split.
    + intros ->. now rewrite Ascii.eqb_refl in Hc.
    + now apply at_end_iff.
  - intros [ds [c [tail [-> [Hds [Hc Ht]]]]]].
    change (rmatch (lit "classes") 0
              ("classes" +:+ ds +:+ String c ("dex" +:+ tail))
              (fun p t => rmatch (Cat (Group (Star Digit))
                            (Cat Dot (Cat (lit "dex") Eol))) p t accept)
            = true).
    rewrite rmatch_lit.
    change (star_loop (rmatch Digit)
              (fun p t => rmatch (Cat Dot (Cat (lit "dex") Eol)) p t accept)
              (String.length (ds +:+ String c ("dex" +:+ tail)))
              (0 + String.length "classes")
              (ds +:+ String c ("dex" +:+ tail)) = true).
    apply star_digit_complete; [exact Hds|].
    cbn [rmatch].
    apply Ascii.eqb_neq in Hc. rewrite Hc. cbn [negb andb].
    change (rmatch (lit "dex")
              (S (0 + String.length "classes" + String.length ds))
              ("dex" +:+ tail) (fun p t => rmatch Eol p t accept) = true).
    rewrite rmatch_lit. cbn [rmatch].
    apply at_end_iff in Ht. now rewrite Ht.
Qed.

(** ** The catalog *)

Lemma find_name_None (idx : list ZipInfo) name :
  List.find (fun e => String.eqb (zi_filename e) name) idx = None
  <-> ~ In name (List.map zi_filename idx).
Proof.
  induction idx as [|e idx IH]; simpl.
  - tauto.
  - destruct (String.eqb (zi_filename e) name) eqn:E.
    + apply String.eqb_eq in E. split; [discriminate | tauto].
    + apply String.eqb_neq in E. rewrite IH. tauto.
Qed.

Lemma zip_lookup_None z name :
  zip_lookup z name = None <-> ~ In name (namelist z).
Proof. apply find_name_None. Qed.

Lemma zip_lookup_Some z name e :
  zip_lookup z name = Some e -> zi_filename e = name /\ In e (zip_index z).
Proof.
  unfold zip_lookup. intros H. apply List.find_some in H.
  destruct H as [Hin Heq]. apply String.eqb_eq in Heq. tauto.
Qed.

Lemma zip_lookup_In z name :
  In name (namelist z) -> exists e, zip_lookup z name = Some e.
Proof.
  intros Hin. destruct (zip_lookup z name) as [e|] eqn:E; [eauto|].
  apply zip_lookup_None in E. contradiction.
Qed.

Lemma get_file_absent self name :
  get_file self name = Raise (FileNotPresent name)
  <-> ~ In name (get_files self).
Proof.
  unfold get_file, get_files, zip_read.
  rewrite <- zip_lookup_None.
  destruct (zip_lookup (zip self) name) as [e|]; [|tauto].
  destruct (zi_data e); split; discriminate.
Qed.

Lemma get_file_present self name info :
  zip_lookup (zip self) name = Some info ->
  get_file self name
  = match zi_data info with
    | Some b => Return b
    | None => Raise (MalformedEntry name)
    end.
Proof.
  intros H. unfold get_file, zip_read. rewrite H. now destruct (zi_data info).
Qed.

(** C7.  [get_file] raises [FileNotPresent] exactly for the names that
    are not in the catalog; for a name of the catalog it returns the
    decompressed bytes of the entry, or, when the entry is corrupt, the
    parser's [MalformedEntry], which is another exception. *)
Theorem get_file_spec self name :
  (get_file self name = Raise (FileNotPresent name)
   <-> ~ In name (get_files self))
  /\ (In name (get_files self) ->
      exists info,
        zip_lookup (zip self) name = Some info
        /\ zi_filename info = name
        /\ get_file self name
           = match zi_data info with
             | Some b => Return b
             | None => Raise (MalformedEntry name)
             end)
  /\ (forall e, get_file self name = Raise e ->
      e = FileNotPresent name \/ e = MalformedEntry name)
  /\ MalformedEntry name <> FileNotPresent name.
Proof.
  split; [apply get_file_absent|]. split; [|split; [|discriminate]].
  - intros Hin. destruct (zip_lookup_In _ _ Hin) as [info Hinfo].
    exists info. split; [exact Hinfo|]. split.
    + now apply zip_lookup_Some in Hinfo.
    + now apply get_file_present.
  - intros e. unfold get_file, zip_read.
    destruct (zip_lookup (zip self) name) as [info|].
    + destruct (zi_data info); [discriminate|]. intros H. inversion H. tauto.
    + intros H. inversion H. tauto.
Qed.

(** C10.  Without an entry [classes.dex], [get_dex] returns the empty
    byte string and never raises [FileNotPresent]; with such an entry it
    returns the entry's decompressed bytes (the parser's exception if the
    entry is corrupt). *)
Theorem get_dex_spec self :
  (~ In "classes.dex" (get_files self) -> get_dex self = Return [])
  /\ (In "classes.dex" (get_files self) ->
      exists info,
        zip_lookup (zip self) "classes.dex" = Some info
        /\ get_dex self
           = match zi_data info with
             | Some b => Return b
             | None => Raise (MalformedEntry "classes.dex")
             end)
  /\ (forall name, get_dex self <> Raise (FileNotPresent name)).
Proof.
  split; [|split].
  - intros H. apply get_file_absent in H. unfold get_dex. now rewrite H.
  - intros Hin. destruct (zip_lookup_In _ _ Hin) as [info Hinfo].
    exists info. split; [exact Hinfo|].
    unfold get_dex. rewrite (get_file_present _ _ _ Hinfo).
    now destruct (zi_data info).
  - intros name. unfold get_dex.
    destruct (get_file self "classes.dex") as [b|e]; [discriminate|].
    destruct e; discriminate.
Qed.

(** ** The classifier *)

(** C9.  The predicate of [get_dex_names] (its pattern, applied with
    [match]) and the predicate of [is_multidex] (its pattern, applied
    with [search]) accept the same names. *)
Theorem dex_patterns_same_predicate name :
  re_match dexre_names name = re_search dexre_multi name.
Proof. apply dexre_match_search. Qed.

Lemma is_multidex_count self :
  is_multidex self = true <-> 2 <= List.length (get_dex_names self).
Proof.
  unfold is_multidex, get_dex_names.
  rewrite (List.filter_ext _ (fun x => re_match dexre_names x)
             (fun x => eq_sym (dexre_match_search x))).
  rewrite Nat.ltb_lt. lia.
Qed.

(** The pattern of [is_multidex] is anchored: a name it finds starts
    with [classes]. *)
Lemma dexre_multi_prefix name :
  re_search dexre_multi name = true ->
  exists rest, name = "classes" +:+ rest.
Proof.
  rewrite <- dexre_match_search, dexre_names_language.
  intros [ds [c [tail [-> _]]]]. eauto.
Qed.

(** C1, as the code has it.  [is_multidex] is true exactly when
    [get_dex_names] keeps two names or more: the two patterns accept the
    same names.  Its pattern is anchored at the start of the name, so a
    name it counts begins with [classes], and a name under a directory,
    such as lib/classes2.dex, is not counted.  It is false for
    classes.dex with lib/classes2.dex, true for classes.dex with
    classes2.dex, and false for classes.dex alone. *)
Theorem is_multidex_anchored :
  (forall self,
     is_multidex self = true <-> 2 <= List.length (get_dex_names self))
  /\ (forall self name,
        In name (List.filter (fun instance => re_search dexre_multi instance)
                             (get_files self)) ->
        In name (get_files self) /\ exists rest, name = "classes" +:+ rest)
  /\ (forall name, re_search dexre_multi ("lib/" +:+ name) = false)
  /\ is_multidex (new_apk (zip_of_names ["classes.dex"; "lib/classes2.dex"]))
     = false
  /\ is_multidex (new_apk (zip_of_names ["classes.dex"; "classes2.dex"]))
     = true
  /\ is_multidex (new_apk (zip_of_names ["classes.dex"])) = false.
Proof.
  split; [exact is_multidex_count|]. split; [|split].
  - intros self name Hin. apply List.filter_In in Hin.
    destruct Hin as [Hin Hm]. split; [exact Hin|].
    now apply dexre_multi_prefix.
  - intros name.
    destruct (re_search dexre_multi ("lib/" +:+ name)) eqn:E; [|reflexivity].
    apply dexre_multi_prefix in E. destruct E as [rest E]. discriminate E.
  - repeat split; reflexivity.
Qed.

(** C1 as stated fails: with the entries classes.dex and
    lib/classes2.dex, [is_multidex] returns false. *)
Lemma is_multidex_nested_false :
  get_files (new_apk (zip_of_names ["classes.dex"; "lib/classes2.dex"]))
  = ["classes.dex"; "lib/classes2.dex"]
  /\ is_multidex (new_apk (zip_of_names ["classes.dex"; "lib/classes2.dex"]))
     <> true.
Proof. split; [reflexivity | discriminate]. Qed.

(** C2 at its failing input.  The dot of the pattern is not escaped, so
    [get_dex_names] keeps the name classesXdex, which is not [classes],
    digits, [.dex]; the five names the spec lists are classified as the
    spec says. *)
Theorem get_dex_names_undotted :
  re_match dexre_names "classesXdex" = true
  /\ is_primary_payload_spec "classesXdex" = false
  /\ get_dex_names (new_apk (zip_of_names ["classes.dex"; "classesXdex"]))
     = ["classes.dex"; "classesXdex"]
  /\ List.map (re_match dexre_names)
       ["classes.dex"; "classes2.dex"; "classes.DEX"; "lib/classes2.dex";
        "classesX.dex"]
     = [true; true; false; false; false].
Proof. repeat split; reflexivity. Qed.

(** ** The opener *)

Lemma APK_init_parse_fails sha parse raw e :
  parse (bio_seek0 (snd (bio_read raw))) true = Raise e ->
  APK_init sha parse raw = Raise e.
Proof. unfold APK_init. simpl. intros H. now rewrite H. Qed.

(** C8, as the code has it.  When the structural parser fails,
    [APK(raw)] fails with the parser's own exception, unchanged, and
    yields no object. *)
Theorem APK_init_propagates sha parse raw e :
  parse (bio_seek0 (snd (bio_read raw))) true = Raise e ->
  APK_init sha parse raw = Raise e
  /\ forall apk, APK_init sha parse raw <> Return apk.
Proof.
  intros H. rewrite (APK_init_parse_fails _ _ _ _ H).
  split; [reflexivity | discriminate].
Qed.

Lemma APK_init_propagates_witness :
  failing_parse
    (bio_seek0 (snd (bio_read {| bio_buf := [Byte.x50; Byte.x4b]; bio_pos := 0 |})))
    true
  = Raise (ParserError "bad end of central directory")
  /\ APK_init constant_digest failing_parse
       {| bio_buf := [Byte.x50; Byte.x4b]; bio_pos := 0 |}
     = Raise (ParserError "bad end of central directory").
Proof.
  split; [reflexivity|].
  apply (APK_init_propagates constant_digest failing_parse
           {| bio_buf := [Byte.x50; Byte.x4b]; bio_pos := 0 |}
           (ParserError "bad end of central directory")).
  reflexivity.
Defined.

(** C8 as stated fails: the exception that leaves [APK(raw)] is the
    parser's, not [BrokenAPKError]. *)
Lemma APK_init_not_BrokenAPKError :
  APK_init constant_digest failing_parse
    {| bio_buf := [Byte.x50; Byte.x4b]; bio_pos := 0 |}
  <> Raise BrokenAPKError.
Proof. discriminate. Qed.

Example APK_init_example :
  APK_init constant_digest (parse_names ["classes.dex"])
    {| bio_buf := [Byte.x50; Byte.x4b]; bio_pos := 0 |}
  = Return {| valid_apk := false; files_crc32 := ∅; _sha256 := "e3b0c442";
              filename := "raw_apk_sha256:e3b0c442";
              zip := zip_of_names ["classes.dex"] |}.
Proof. reflexivity. Qed.

Lemma APK_init_parse_ok sha parse raw z :
  parse (bio_seek0 (snd (bio_read raw))) true = Return z ->
  exists apk,
    APK_init sha parse raw = Return apk
    /\ zip apk = z /\ files_crc32 apk = ∅
    /\ _sha256 apk = sha (skipn (bio_pos raw) (bio_buf raw)).
Proof.
  unfold APK_init. simpl. intros H. rewrite H. eexists. repeat split.
Qed.

(** ** The checksum cache *)

Lemma extends_refl st : extends st st.
Proof. split; reflexivity. Qed.

Lemma extends_trans st1 st2 st3 :
  extends st1 st2 -> extends st2 st3 -> extends st1 st3.
Proof.
  intros [Hz1 Hc1] [Hz2 Hc2]. split; [congruence|]. now transitivity (files_crc32 (self st2)).
Qed.

Lemma extends_lookup st st' k v :
  extends st st' ->
  files_crc32 (self st) !! k = Some v -> files_crc32 (self st') !! k = Some v.
Proof. intros [_ Hc] H. eapply lookup_weaken; eassumption. Qed.

(** A request for a name that is in the cache: one read, the raw
    buffer, and nothing else. *)
Lemma _get_crc32_hit ns name st v :
  files_crc32 (self st) !! name = Some v ->
  _get_crc32 ns name st
  = (zip_read (zip (self st)) name,
     {| self := self st; trace := trace st ++ [EvRead name] |}).
Proof.
  intros H. unfold _get_crc32. run.
  destruct (zip_read (zip (self st)) name); [rewrite H|]; reflexivity.
Qed.

(** The first request for a readable entry when the names are bound. *)
Lemma _get_crc32_miss ns name st f info buf :
  crc32 ns = Some f -> logger ns = Some tt ->
  files_crc32 (self st) !! name = None ->
  zip_lookup (zip (self st)) name = Some info ->
  zi_data info = Some buf ->
  _get_crc32 ns name st
  = (Return buf,
     {| self := set_files_crc32 (self st)
                  (<[name := f buf]> (files_crc32 (self st)));
        trace := trace st ++ EvRead name :: EvCrc32 buf
                 :: (if (f buf =? crc32_of_uncompressed_data info)%Z then []
                     else [EvLogError name (crc32_of_uncompressed_data info)
                             (f buf)]) |}).
Proof.
  intros Hf Hl Hc Hz Hd. unfold _get_crc32, zip_read, infolist_crc32, getitem.
  run. rewrite Hz, Hd, Hc, Hf. simpl. rewrite Hz. simpl.
  rewrite lookup_insert_eq. simpl.
  destruct (f buf =? crc32_of_uncompressed_data info)%Z; simpl.
  - now rewrite <- !app_assoc.
  - rewrite Hl. simpl. now rewrite <- !app_assoc.
Qed.

(** Without a binding for [crc32] the first request reads the entry and
    then fails, leaving the cache as it was. *)
Lemma _get_crc32_unbound ns name st buf :
  crc32 ns = None ->
  files_crc32 (self st) !! name = None ->
  zip_read (zip (self st)) name = Return buf ->
  _get_crc32 ns name st
  = (Raise (NameError "crc32"),
     {| self := self st; trace := trace st ++ [EvRead name] |}).
Proof.
  intros Hf Hc Hz. unfold _get_crc32. run. now rewrite Hz, Hc, Hf.
Qed.

Lemma extends_same_self st st' : self st' = self st -> extends st st'.
Proof. intros H. unfold extends. rewrite H. split; reflexivity. Qed.

Lemma _get_crc32_extends ns name st :
  extends st (snd (_get_crc32 ns name st)).
Proof.
  unfold _get_crc32, getitem. run.
  destruct (zip_read (zip (self st)) name) as [buf|e];
    [|now apply extends_same_self].
  destruct (files_crc32 (self st) !! name) as [v|] eqn:Hc;
    [now apply extends_same_self|].
  destruct (crc32 ns) as [f|]; simpl; [|now apply extends_same_self].
  assert (Hext : forall tr,
    extends st {| self := set_files_crc32 (self st)
                            (<[name := f buf]> (files_crc32 (self st)));
                  trace := tr |}).
  { intros tr. split; [reflexivity|]. simpl. now apply insert_subseteq. }
  assert (Hl : <[name := f buf]> (files_crc32 (self st)) !! name
               = Some (f buf)) by apply lookup_insert_eq.
  rewrite !Hl. simpl.
  destruct (infolist_crc32 (zip (self st)) name) as [d|e]; simpl; [|apply Hext].
  destruct (f buf =? d)%Z; simpl; [apply Hext|].
  destruct (logger ns); simpl; apply Hext.
Qed.

Lemma for_each_extends ns names : forall st,
  extends st
    (snd (for_each names (fun i => _get_crc32 ns i ;; ret tt) st)).
Proof.
  induction names as [|n names IH]; intros st; simpl; [apply extends_refl|].
  unfold bind at 1. unfold bind at 1.
  pose proof (_get_crc32_extends ns n st) as H1.
  destruct (_get_crc32 ns n st) as [[b|e] st1]; simpl in *; [|exact H1].
  eapply extends_trans; [exact H1|]. apply IH.
Qed.

(** With a cache that is not empty, [get_files_crc32] is the cache. *)
Lemma get_files_crc32_nonempty ns st :
  files_crc32 (self st) <> ∅ ->
  get_files_crc32 ns st = (Return (files_crc32 (self st)), st).
Proof.
  intros H. unfold get_files_crc32. run.
  destruct (decide (files_crc32 (self st) = ∅)); [contradiction|].
  reflexivity.
Qed.

Lemma get_files_crc32_extends ns st :
  extends st (snd (get_files_crc32 ns st)).
Proof.
  unfold get_files_crc32. run.
  destruct (decide (files_crc32 (self st) = ∅)) as [He|Hne];
    [|apply extends_refl].
  pose proof (for_each_extends ns (get_files (self st)) st) as H.
  destruct (for_each _ _ st) as [[u|e] st1]; exact H.
Qed.

Lemma get_files_crc32_returns ns st m st' :
  get_files_crc32 ns st = (Return m, st') -> m = files_crc32 (self st').
Proof.
  unfold get_files_crc32. run.
  destruct (decide (files_crc32 (self st) = ∅)) as [He|Hne].
  - destruct (for_each _ _ st) as [[u|e] st1]; intros H; inversion H; reflexivity.
  - intros H; inversion H; reflexivity.
Qed.

(** *** Counting events *)

Lemma count_reads_snoc name tr ev :
  count_reads name (tr ++ [ev])
  = (count_reads name tr + (if is_read_of name ev then 1 else 0))%nat.
Proof.
  unfold count_reads. rewrite List.filter_app, List.length_app. simpl.
  now destruct (is_read_of name ev).
Qed.

Lemma count_crc32_snoc tr ev :
  count_crc32 (tr ++ [ev])
  = (count_crc32 tr + (if is_crc32_call ev then 1 else 0))%nat.
Proof.
  unfold count_crc32. rewrite List.filter_app, List.length_app. simpl.
  now destruct (is_crc32_call ev).
Qed.

Lemma is_read_of_same name : is_read_of name (EvRead name) = true.
Proof. apply String.eqb_refl. Qed.

(** What one request does, whatever the bindings are: the cache only
    grows, the entry is read once, the checksum is computed at most once
    and only for a name the cache lacks, and a request that returns leaves
    the name in the cache. *)
Lemma _get_crc32_post ns name st :
  extends st (snd (_get_crc32 ns name st))
  /\ count_reads name (trace (snd (_get_crc32 ns name st)))
     = S (count_reads name (trace st))
  /\ (count_crc32 (trace (snd (_get_crc32 ns name st)))
      = count_crc32 (trace st)
      \/ (count_crc32 (trace (snd (_get_crc32 ns name st)))
          = S (count_crc32 (trace st))
          /\ files_crc32 (self st) !! name = None
          /\ is_Some (files_crc32 (self (snd (_get_crc32 ns name st)))
                        !! name)))
  /\ (forall b, fst (_get_crc32 ns name st) = Return b ->
      zip_read (zip (self st)) name = Return b
      /\ is_Some (files_crc32 (self (snd (_get_crc32 ns name st))) !! name)).
Proof.
  split; [apply _get_crc32_extends|].
  unfold _get_crc32, getitem. run.
  destruct (zip_read (zip (self st)) name) as [buf|e]; simpl.
  2:{ rewrite count_reads_snoc, count_crc32_snoc, is_read_of_same. simpl.
      repeat split; try lia; discriminate. }
  destruct (files_crc32 (self st) !! name) as [v|] eqn:Hc; simpl.
  { rewrite count_reads_snoc, count_crc32_snoc, is_read_of_same. simpl.
    split; [lia|]. split; [left; lia|].
    intros b Hb. inversion Hb. subst b. rewrite Hc. split; [reflexivity|eauto]. }
  destruct (crc32 ns) as [f|]; simpl.
  2:{ rewrite count_reads_snoc, count_crc32_snoc, is_read_of_same. simpl.
      repeat split; try lia; discriminate. }
  assert (Hl : <[name := f buf]> (files_crc32 (self st)) !! name
               = Some (f buf)) by apply lookup_insert_eq.
  rewrite !Hl. simpl.
  assert (Hdone : forall tr' r,
    count_reads name tr' = S (count_reads name (trace st)) ->
    count_crc32 tr' = S (count_crc32 (trace st)) ->
    (forall b, r = Return b -> b = buf) ->
    let st' := {| self := set_files_crc32 (self st)
                            (<[name := f buf]> (files_crc32 (self st)));
                  trace := tr' |} in
    count_reads name (trace st') = S (count_reads name (trace st))
    /\ (count_crc32 (trace st') = count_crc32 (trace st)
        \/ (count_crc32 (trace st') = S (count_crc32 (trace st))
            /\ None = @None Z
            /\ is_Some (files_crc32 (self st') !! name)))
    /\ (forall b, r = Return b ->
        Return buf = Return b /\ is_Some (files_crc32 (self st') !! name))).
  { intros tr' r Hr Hcr Hb. simpl. rewrite Hl.
    split; [exact Hr|]. split; [right; eauto|].
    intros b Hrb. apply Hb in Hrb. subst b. eauto. }
  assert (Hr2 : count_reads name ((trace st ++ [EvRead name]) ++ [EvCrc32 buf])
                = S (count_reads name (trace st))).
  { rewrite !count_reads_snoc, is_read_of_same. simpl. lia. }
  assert (Hc2 : count_crc32 ((trace st ++ [EvRead name]) ++ [EvCrc32 buf])
                = S (count_crc32 (trace st))).
  { rewrite !count_crc32_snoc. simpl. lia. }
  destruct (infolist_crc32 (zip (self st)) name) as [d|e]; simpl.
  2:{ apply (Hdone _ (Raise e)); [exact Hr2 | exact Hc2 | discriminate]. }
  destruct (f buf =? d)%Z; simpl.
  { apply (Hdone _ (Return buf)); [exact Hr2 | exact Hc2 |].
    intros b Hb. now inversion Hb. }
  destruct (logger ns); simpl.
  - apply (Hdone _ (Return buf)).
    + rewrite count_reads_snoc. simpl. lia.
    + rewrite count_crc32_snoc. simpl. lia.
    + intros b Hb. now inversion Hb.
  - apply (Hdone _ (Raise (NameError "logger")));
      [exact Hr2 | exact Hc2 | discriminate].
Qed.

(** Two requests in a row. *)
Lemma _get_crc32_twice ns name st :
  let st1 := snd (_get_crc32 ns name st) in
  let st2 := snd (_get_crc32 ns name st1) in
  files_crc32 (self st) ⊆ files_crc32 (self st1)
  /\ files_crc32 (self st1) ⊆ files_crc32 (self st2)
  /\ count_reads name (trace st2) = S (S (count_reads name (trace st)))
  /\ count_crc32 (trace st2) <= S (count_crc32 (trace st))
  /\ (forall b, fst (_get_crc32 ns name st) = Return b ->
      fst (_get_crc32 ns name st1) = Return b
      /\ self st2 = self st1).
Proof.
  intros st1 st2.
  destruct (_get_crc32_post ns name st) as [[Hz1 He1] [Hr1 [Hc1 Hb1]]].
  destruct (_get_crc32_post ns name st1) as [[Hz2 He2] [Hr2 [Hc2 Hb2]]].
  fold st1 in Hz1, He1, Hr1, Hc1, Hb1. fold st2 in Hz2, He2, Hr2, Hc2, Hb2.
  split; [exact He1|]. split; [exact He2|]. split; [lia|]. split.
  - destruct Hc2 as [Hc2|[_ [Hnone _]]]; [destruct Hc1 as [Hc1|[Hc1 _]]; lia|].
    destruct Hc1 as [Hc1|[_ [_ [v Hv]]]]; [|congruence].
    destruct (_get_crc32_post ns name st1) as [_ [_ [[H|[H _]] _]]];
      fold st2 in H; [lia|].
    lia.
  - intros b Hb. destruct (Hb1 b Hb) as [Hread [v Hv]].
    unfold st2. rewrite (_get_crc32_hit ns name st1 v Hv). simpl.
    rewrite Hz1. auto.
Qed.

(** C4, as the code has it.  Across two requests for the same name, in
    any state: the cache only grows (no value in it is replaced or
    removed), the checksum is computed at most once, and the entry is
    read on each request, twice in all; when the first request returns a
    buffer, the second returns the same buffer and leaves the object as it
    is. *)
Theorem _get_crc32_two_requests ns name st :
  let st1 := snd (_get_crc32 ns name st) in
  let st2 := snd (_get_crc32 ns name st1) in
  (forall k v, files_crc32 (self st) !! k = Some v ->
     files_crc32 (self st1) !! k = Some v
     /\ files_crc32 (self st2) !! k = Some v)
  /\ count_crc32 (trace st2) <= S (count_crc32 (trace st))
  /\ count_reads name (trace st2) = S (S (count_reads name (trace st)))
  /\ (forall b, fst (_get_crc32 ns name st) = Return b ->
      fst (_get_crc32 ns name st1) = Return b /\ self st2 = self st1).
Proof.
  intros st1 st2.
  destruct (_get_crc32_twice ns name st) as [H1 [H2 [Hr [Hc Hb]]]].
  fold st1 in H1, H2, Hr, Hc, Hb. fold st2 in H2, Hr, Hc, Hb.
  split; [|auto].
  intros k v Hk. assert (files_crc32 (self st1) !! k = Some v)
    by (eapply lookup_weaken; eassumption).
  split; [assumption|]. eapply lookup_weaken; eassumption.
Qed.

(** C4 as stated fails: two requests for the entry read it twice, with
    the names unbound as in the source and with the names bound. *)
Lemma _get_crc32_reads_twice :
  count_reads "a"
    (trace (snd (_get_crc32 module_namespace "a"
              (snd (_get_crc32 module_namespace "a"
                      (fresh (zip_of_names ["a"])))))))
  = 2
  /\ count_reads "a"
       (trace (snd (_get_crc32 (bound_namespace types_ab) "a"
                 (snd (_get_crc32 (bound_namespace types_ab) "a"
                         (fresh (zip_of_names ["a"])))))))
     = 2.
Proof. split; vm_compute; reflexivity. Qed.

(** C5 at its failing input.  The entry ["a"] of [zip_mismatch] declares
    checksum 5 and has checksum 3904355907.  In the source as it is the
    request fails with [NameError] on [crc32]: nothing is stored and no
    diagnostic is emitted.  With [crc32] bound and [logger] unbound the
    computed value is stored and the request fails with [NameError] on
    [logger], again without a diagnostic. *)
Theorem _get_crc32_mismatch_unbound :
  _get_crc32 module_namespace "a" (fresh zip_mismatch)
  = (Raise (NameError "crc32"),
     {| self := new_apk zip_mismatch; trace := [EvRead "a"] |})
  /\ (let ns := {| crc32 := Some zlib_crc32; logger := None;
                   get_files_types := None |} in
      fst (_get_crc32 ns "a" (fresh zip_mismatch))
      = Raise (NameError "logger")
      /\ files_crc32 (self (snd (_get_crc32 ns "a" (fresh zip_mismatch))))
           !! "a" = Some 3904355907%Z
      /\ count_logs (trace (snd (_get_crc32 ns "a" (fresh zip_mismatch))))
         = 0).
Proof. split; [reflexivity|]. repeat split; vm_compute; reflexivity. Qed.

(** What C5 describes is what the code does once the two names are
    bound: one diagnostic with the name, the declared and the computed
    checksum, the computed checksum in the cache, and no diagnostic on
    the next request. *)
Lemma _get_crc32_mismatch_bound :
  let ns := bound_namespace types_ab in
  let st1 := snd (_get_crc32 ns "a" (fresh zip_mismatch)) in
  let st2 := snd (_get_crc32 ns "a" st1) in
  trace st1 = [EvRead "a"; EvCrc32 [Byte.x61]; EvLogError "a" 5 3904355907]
  /\ files_crc32 (self st1) !! "a" = Some 3904355907%Z
  /\ count_logs (trace st2) = 1.
Proof. repeat split; vm_compute; reflexivity. Qed.

(** C3, as the code has it.  With a cache that is not empty,
    [get_files_crc32] validates nothing: it returns the cache as it is
    and changes nothing, the first time and the second. *)
Theorem get_files_crc32_nonempty_cache ns st :
  files_crc32 (self st) <> ∅ ->
  get_files_crc32 ns st = (Return (files_crc32 (self st)), st)
  /\ get_files_crc32 ns (snd (get_files_crc32 ns st))
     = get_files_crc32 ns st.
Proof.
  intros H. rewrite (get_files_crc32_nonempty ns st H). simpl.
  split; [reflexivity|]. now apply get_files_crc32_nonempty.
Qed.

Lemma partial_state_nonempty : files_crc32 (self partial_state) <> ∅.
Proof. intros H. vm_compute in H. discriminate H. Qed.

Lemma get_files_crc32_nonempty_cache_witness :
  files_crc32 (self partial_state) <> ∅
  /\ get_files_crc32 module_namespace partial_state
     = (Return (files_crc32 (self partial_state)), partial_state).
Proof.
  split.
  - intros H. vm_compute in H. discriminate H.
  - apply (get_files_crc32_nonempty_cache module_namespace partial_state).
    intros H. vm_compute in H. discriminate H.
Defined.

(** C3 as stated fails: the cache of [partial_state] is not empty and
    lacks ["b"], a name of the archive, and [get_files_crc32] returns it
    without a checksum for ["b"] and without validating anything. *)
Lemma get_files_crc32_skips_missing :
  files_crc32 (self partial_state) <> ∅
  /\ In "b" (get_files (self partial_state))
  /\ files_crc32 (self partial_state) !! "b" = None
  /\ exists m,
       get_files_crc32 module_namespace partial_state
       = (Return m, partial_state)
       /\ m !! "b" = None.
Proof.
  split; [exact partial_state_nonempty|].
  split; [vm_compute; tauto|]. split; [vm_compute; reflexivity|].
  eexists. split; [apply get_files_crc32_nonempty, partial_state_nonempty|].
  vm_compute; reflexivity.
Qed.

(** The same cache arises from one request when the names are bound. *)
Example partial_state_reached :
  files_crc32
    (self (snd (_get_crc32 (bound_namespace types_ab) "a"
                  (fresh zip_mismatch))))
  = files_crc32 (self partial_state).
Proof. vm_compute. reflexivity. Qed.

(** ** The report *)

Lemma report_entry_extends ns k st :
  extends st (snd (report_entry ns k st)).
Proof.
  unfold report_entry, getitem. run.
  destruct (get_files_types ns) as [types|]; simpl; [|apply extends_refl].
  destruct (types !! k) as [t|]; simpl; [|apply extends_refl].
  pose proof (get_files_crc32_extends ns st) as H.
  destruct (get_files_crc32 ns st) as [[m|e] st1]; simpl in *; [|exact H].
  destruct (m !! k); exact H.
Qed.

(** A tuple that is yielded holds the name, its type and the checksum
    that the cache has for the name. *)
Lemma report_entry_returns ns k st tup st' :
  report_entry ns k st = (Return tup, st') ->
  tup.1.1 = k
  /\ files_crc32 (self st') !! k = Some tup.2
  /\ exists types,
       get_files_types ns = Some types /\ types !! k = Some tup.1.2.
Proof.
  unfold report_entry, getitem. run.
  destruct (get_files_types ns) as [types|]; simpl; [|discriminate].
  destruct (types !! k) as [t|] eqn:Ht; simpl; [|discriminate].
  destruct (get_files_crc32 ns st) as [[m|e] st1] eqn:Hm; simpl;
    [|discriminate].
  apply get_files_crc32_returns in Hm. subst m.
  destruct (files_crc32 (self st1) !! k) as [c|] eqn:Hc; [|discriminate].
  intros H. inversion H. subst. simpl. eauto.
Qed.

Lemma gen_drain_spec ns todo : forall st,
  let '(ts, e, st') := gen_drain ns todo st in
  extends st st'
  /\ List.map (fun t => t.1.1) ts = firstn (List.length ts) todo
  /\ (e = None <-> List.length ts = List.length todo)
  /\ Forall (fun t => files_crc32 (self st') !! t.1.1 = Some t.2) ts.
Proof.
  induction todo as [|k rest IH]; intros st; simpl.
  - split; [apply extends_refl|]. repeat split; constructor.
  - pose proof (report_entry_extends ns k st) as Hext.
    destruct (report_entry ns k st) as [[tup|x] st1] eqn:Hk; simpl in Hext.
    + specialize (IH st1).
      destruct (gen_drain ns rest st1) as [[ts e] st2].
      destruct IH as [Hext2 [Hmap [Hlen Hall]]].
      apply report_entry_returns in Hk. destruct Hk as [Hname [Hcrc _]].
      split; [eapply extends_trans; eassumption|]. simpl. split.
      { now rewrite Hname, Hmap. }
      split; [rewrite Hlen; lia|].
      constructor; [|exact Hall].
      rewrite Hname. eapply extends_lookup; eassumption.
    + split; [exact Hext|]. simpl. repeat split; try discriminate.
      constructor.
Qed.

Lemma pull_all_S ns fuel g st :
  pull_all ns (S fuel) g st
  = match gen_next ns g st with
    | (Yield t, g', st') =>
        let '(ts, e, st'') := pull_all ns fuel g' st' in (t :: ts, e, st'')
    | (StopIteration, _, st') => ([], None, st')
    | (Raised e, _, st') => ([], Some e, st')
    end.
Proof. reflexivity. Qed.

Lemma gen_next_cons ns g k rest st :
  match g with
  | Created => get_files (self st)
  | Suspended todo => todo
  | Finished => []
  end = k :: rest ->
  gen_next ns g st
  = match report_entry ns k st with
    | (Return t, st') => (Yield t, Suspended rest, st')
    | (Raise e, st') => (Raised e, Finished, st')
    end.
Proof. unfold gen_next. now intros ->. Qed.

Lemma gen_next_nil ns g st :
  match g with
  | Created => get_files (self st)
  | Suspended todo => todo
  | Finished => []
  end = [] ->
  gen_next ns g st = (StopIteration, Finished, st).
Proof. unfold gen_next. now intros ->. Qed.

Lemma gen_drain_cons ns k rest st :
  gen_drain ns (k :: rest) st
  = match report_entry ns k st with
    | (Return t, st') =>
        let '(ts, e, st'') := gen_drain ns rest st' in (t :: ts, e, st'')
    | (Raise e, st') => ([], Some e, st')
    end.
Proof. reflexivity. Qed.

(** Pulling with [next] until the generator stops gives [gen_drain]. *)
Lemma pull_all_from ns todo : forall g st,
  match g with
  | Created => get_files (self st)
  | Suspended rest => rest
  | Finished => []
  end = todo ->
  pull_all ns (S (List.length todo)) g st = gen_drain ns todo st.
Proof.
  induction todo as [|k rest IH]; intros g st Hg; rewrite pull_all_S.
  - now rewrite (gen_next_nil ns g st Hg).
  - rewrite (gen_next_cons ns g k rest st Hg), gen_drain_cons.
    destruct (report_entry ns k st) as [[tup|x] st1]; [|reflexivity].
    change (List.length (k :: rest)) with (S (List.length rest)).
    now rewrite (IH (Suspended rest) st1 eq_refl).
Qed.

Lemma pull_all_created ns st :
  pull_all ns (S (List.length (get_files (self st)))) Created st
  = get_files_information ns st.
Proof. now apply pull_all_from. Qed.

Lemma gen_next_Raised ns g st x g' st' :
  gen_next ns g st = (Raised x, g', st') ->
  g' = Finished
  /\ forall st'', gen_next ns g' st'' = (StopIteration, Finished, st'').
Proof.
  unfold gen_next. intros H.
  assert (g' = Finished) as ->; [|split; reflexivity].
  destruct (match g with
            | Created => get_files (self st)
            | Suspended rest => rest
            | Finished => []
            end) as [|k rest]; [now inversion H|].
  destruct (report_entry ns k st) as [[tup|e] st1]; now inversion H.
Qed.

(** One [next], spelled out: what it yields or raises, from the type
    lookup, the batch call and the cache lookup. *)
Lemma gen_next_step ns g st k rest :
  pending g st = k :: rest ->
  gen_next ns g st
  = match get_files_types ns with
    | None => (Raised (AttributeError "get_files_types"), Finished, st)
    | Some types =>
        match types !! k with
        | None => (Raised (KeyError k), Finished, st)
        | Some t =>
            match get_files_crc32 ns st with
            | (Raise x, st') => (Raised x, Finished, st')
            | (Return m, st') =>
                match m !! k with
                | None => (Raised (KeyError k), Finished, st')
                | Some c => (Yield (k, t, c), Suspended rest, st')
                end
            end
        end
    end.
Proof.
  intros Hp. rewrite (gen_next_cons ns g k rest st Hp).
  unfold report_entry, getitem. run.
  destruct (get_files_types ns) as [types|]; simpl; [|reflexivity].
  destruct (types !! k) as [t|]; simpl; [|reflexivity].
  destruct (get_files_crc32 ns st) as [[m|x] st1]; simpl; [|reflexivity].
  destruct (m !! k); reflexivity.
Qed.

(** The exception that ends the report is the one that [next] raised
    for the first name without a tuple. *)
Lemma gen_drain_raise ns : forall todo st ts x st',
  gen_drain ns todo st = (ts, Some x, st') ->
  exists s,
    gen_next ns (Suspended (skipn (List.length ts) todo)) s
    = (Raised x, Finished, st').
Proof.
  induction todo as [|k rest IH]; intros st ts x st' H; [discriminate|].
  rewrite gen_drain_cons in H.
  destruct (report_entry ns k st) as [[tup|y] st1] eqn:Hk.
  - destruct (gen_drain ns rest st1) as [[ts1 e1] st2] eqn:Hrest.
    inversion H. subst. simpl.
    apply (IH st1 ts1 x st' Hrest).
  - inversion H. subst. simpl. exists st.
    rewrite (gen_next_cons ns (Suspended (k :: rest)) k rest st eq_refl).
    now rewrite Hk.
Qed.

Lemma gen_drain_tuples ns : forall todo st,
  Forall (fun t =>
            files_crc32 (self (snd (gen_drain ns todo st))) !! t.1.1
            = Some t.2
            /\ exists types,
                 get_files_types ns = Some types
                 /\ types !! t.1.1 = Some t.1.2)
         (fst (fst (gen_drain ns todo st))).
Proof.
  induction todo as [|k rest IH]; intros st; [constructor|].
  rewrite gen_drain_cons.
  destruct (report_entry ns k st) as [[tup|y] st1] eqn:Hk; [|constructor].
  specialize (IH st1).
  pose proof (gen_drain_spec ns rest st1) as Hspec.
  destruct (gen_drain ns rest st1) as [[ts e] st2].
  destruct Hspec as [Hext _]. simpl in *.
  apply report_entry_returns in Hk. destruct Hk as [Hname [Hcrc Htypes]].
  constructor; [|exact IH].
  rewrite Hname. split; [|exact Htypes].
  eapply extends_lookup; eassumption.
Qed.

(** C6, as the code has it.  [get_files_information] yields tuples for
    the names of [get_files] in order.  Each [next] takes the following
    name [k] and yields [(k, t, c)], where [t] is what the dictionary of
    [get_files_types] has for [k] and [c] what the mapping returned by
    [get_files_crc32] has for [k]; the checksum is the one the cache
    holds.  It handles no exception and has no placeholder: when the
    method is missing, a key is missing or the batch call raises, that
    exception leaves [next] as it is and the generator is finished, so
    the report is complete exactly when no exception left it and nothing
    can be pulled afterwards. *)
Theorem get_files_information_prefix ns st :
  let '(ts, e, st') := get_files_information ns st in
  List.map (fun t => t.1.1) ts
  = firstn (List.length ts) (get_files (self st))
  /\ (e = None <-> List.length ts = List.length (get_files (self st)))
  /\ Forall (fun t =>
               files_crc32 (self st') !! t.1.1 = Some t.2
               /\ exists types,
                    get_files_types ns = Some types
                    /\ types !! t.1.1 = Some t.1.2) ts
  /\ (forall x, e = Some x ->
      exists s,
        gen_next ns
          (Suspended (skipn (List.length ts) (get_files (self st)))) s
        = (Raised x, Finished, st'))
  /\ pull_all ns (S (List.length (get_files (self st)))) Created st
     = (ts, e, st')
  /\ (forall g s k rest, pending g s = k :: rest ->
      gen_next ns g s
      = match get_files_types ns with
        | None => (Raised (AttributeError "get_files_types"), Finished, s)
        | Some types =>
            match types !! k with
            | None => (Raised (KeyError k), Finished, s)
            | Some t =>
                match get_files_crc32 ns s with
                | (Raise x, s') => (Raised x, Finished, s')
                | (Return m, s') =>
                    match m !! k with
                    | None => (Raised (KeyError k), Finished, s')
                    | Some c => (Yield (k, t, c), Suspended rest, s')
                    end
                end
            end
        end)
  /\ (forall g s, pending g s = [] ->
      gen_next ns g s = (StopIteration, Finished, s))
  /\ (forall g s x g' s', gen_next ns g s = (Raised x, g', s') ->
      g' = Finished
      /\ forall s'', gen_next ns g' s'' = (StopIteration, Finished, s'')).
Proof.
  pose proof (gen_drain_spec ns (get_files (self st)) st) as H.
  pose proof (pull_all_created ns st) as Hp.
  pose proof (gen_drain_tuples ns (get_files (self st)) st) as Ht.
  pose proof (gen_drain_raise ns (get_files (self st)) st) as Hr.
  unfold get_files_information in *.
  destruct (gen_drain ns (get_files (self st)) st) as [[ts e] st'].
  destruct H as [_ [Hmap [Hlen _]]]. simpl in Ht.
  split; [exact Hmap|]. split; [exact Hlen|]. split; [exact Ht|].
  split; [intros x ->; now apply (Hr ts x st')|].
  split; [exact Hp|].
  split; [intros g s k rest; apply gen_next_step|].
  split; [intros g s; apply gen_next_nil|].
  intros; eapply gen_next_Raised; eassumption.
Qed.

(** C6 as stated fails: a corrupt second entry ends the whole report
    with the parser's exception before any tuple is yielded, and in the
    source as it is the first tuple already fails on the missing method;
    no placeholder appears. *)
Lemma get_files_information_aborts :
  fst (get_files_information (bound_namespace types_ab) (fresh zip_corrupt))
  = ([], Some (MalformedEntry "b"))
  /\ fst (get_files_information module_namespace
            (fresh (zip_of_names ["a"])))
     = ([], Some (AttributeError "get_files_types")).
Proof. split; vm_compute; reflexivity. Qed.

(** Without failures the report is complete. *)
Example get_files_information_complete :
  fst (get_files_information (bound_namespace types_ab) (fresh zip_mismatch))
  = ([("a", "data", 3904355907%Z); ("b", "data", 0%Z)], None).
Proof. vm_compute. reflexivity. Qed.

(** * Further properties *)

(** ** Names and payloads *)

(** X1.  [get_dex_names] returns exactly the names of the catalog made of
    [classes], decimal digits, any one character but a newline, [dex],
    and then nothing or one final newline. *)
Theorem get_dex_names_members self name :
  In name (get_dex_names self)
  <-> In name (get_files self)
      /\ exists ds c tail,
           name = "classes" +:+ ds +:+ String c ("dex" +:+ tail)
           /\ all_digits ds = true
           /\ c <> newline
           /\ (tail = "" \/ tail = String newline "").
Proof.
  unfold get_dex_names. rewrite List.filter_In, dexre_names_language. tauto.
Qed.

Lemma documented_name_kept self name :
  In name (get_files self) ->
  is_primary_payload_spec name = true ->
  In name (get_dex_names self).
Proof.
  intros Hin Hspec. unfold get_dex_names. apply List.filter_In.
  split; [exact Hin | now apply spec_names_accepted].
Qed.

(** X2.  Every name of the catalog that has the documented form,
    [classes.dex] or [classes] followed by digits and [.dex], is among
    the names [get_dex_names] returns. *)
Theorem get_dex_names_documented self name :
  In name (get_files self) ->
  is_primary_payload_spec name = true ->
  In name (get_dex_names self).
Proof. apply documented_name_kept. Qed.

Lemma get_dex_names_documented_witness :
  In "classes2.dex"
     (get_dex_names (new_apk (zip_of_names ["AndroidManifest.xml";
                                            "classes2.dex"]))).
Proof.
  apply (get_dex_names_documented
           (new_apk (zip_of_names ["AndroidManifest.xml"; "classes2.dex"]))
           "classes2.dex").
  - simpl. tauto.
  - reflexivity.
Defined.

Lemma get_dex_names_in_catalog self name :
  In name (get_dex_names self) -> In name (get_files self).
Proof. unfold get_dex_names. rewrite List.filter_In. tauto. Qed.

Lemma get_file_raises self name x :
  get_file self name = Raise x ->
  x = FileNotPresent name \/ x = MalformedEntry name.
Proof.
  unfold get_file, zip_read.
  destruct (zip_lookup (zip self) name) as [info|].
  - destruct (zi_data info); [discriminate|]. intros H. inversion H. tauto.
  - intros H. inversion H. tauto.
Qed.

Lemma all_dex_from_spec self : forall names,
  (forall n, In n names -> In n (get_files self)) ->
  let '(bs, e) := all_dex_from self names in
  Forall2 (fun n b => get_file self n = Return b)
          (firstn (List.length bs) names) bs
  /\ (e = None <-> List.length bs = List.length names)
  /\ (forall x, e = Some x ->
      exists n, In n names /\ x = MalformedEntry n).
Proof.
  induction names as [|n rest IH]; intros Hin; simpl.
  - repeat split; try constructor; discriminate.
  - destruct (get_file self n) as [b|x] eqn:Hn.
    + assert (Hrest : forall m, In m rest -> In m (get_files self))
        by (intros m Hm; apply Hin; now right).
      specialize (IH Hrest).
      destruct (all_dex_from self rest) as [bs e].
      destruct IH as [Hall [Hlen Hexn]]. simpl. split; [|split].
      * now constructor.
      * rewrite Hlen. lia.
      * intros x Hx. destruct (Hexn x Hx) as [m [Hm ->]]. eauto.
    + simpl. split; [constructor|]. split; [split; discriminate|].
      intros y Hy. inversion Hy. subst y. exists n. split; [now left|].
      destruct (get_file_raises self n x Hn) as [->| ->]; [|reflexivity].
      apply get_file_absent in Hn. exfalso. apply Hn, Hin. now left.
Qed.

(** The iteration stops at the first file that [get_file] cannot
    return, with the exception [get_file] raised, and not before. *)
Lemma all_dex_from_exact self : forall names,
  (snd (all_dex_from self names) = None
   <-> forall n, In n names -> exists b, get_file self n = Return b)
  /\ (forall x, snd (all_dex_from self names) = Some x ->
      exists n,
        nth_error names (List.length (fst (all_dex_from self names)))
        = Some n
        /\ get_file self n = Raise x).
Proof.
  induction names as [|n rest IH]; simpl.
  - split; [split; [intros _ m [] | reflexivity] | discriminate].
  - destruct (get_file self n) as [b|y] eqn:Hn.
    + destruct (all_dex_from self rest) as [bs e]. simpl in *.
      destruct IH as [Hnone Hsome]. split.
      * rewrite Hnone. split.
        -- intros H m [<-|Hm]; [eauto | now apply H].
        -- intros H m Hm. apply H. now right.
      * exact Hsome.
    + simpl. split.
      * split; [discriminate|]. intros H.
        destruct (H n (or_introl eq_refl)) as [b Hb]. congruence.
      * intros x Hx. inversion Hx. subst. exists n. now split.
Qed.

(** X3.  [get_all_dex] yields, in the order of [get_dex_names], the bytes
    that [get_file] returns for each of those names.  The iteration is
    complete exactly when [get_file] returns bytes for every one of the
    names; otherwise it ends at the first name for which [get_file]
    raises, with that exception, which is the parser's for an entry it
    cannot decompress and never [FileNotPresent]. *)
Theorem get_all_dex_spec self :
  let '(bs, e) := get_all_dex self in
  Forall2 (fun n b => get_file self n = Return b)
          (firstn (List.length bs) (get_dex_names self)) bs
  /\ (e = None <-> List.length bs = List.length (get_dex_names self))
  /\ (e = None
      <-> forall n, In n (get_dex_names self) ->
                    exists b, get_file self n = Return b)
  /\ (forall x, e = Some x ->
      exists n,
        nth_error (get_dex_names self) (List.length bs) = Some n
        /\ get_file self n = Raise x
        /\ x = MalformedEntry n).
Proof.
  pose proof (all_dex_from_spec self (get_dex_names self)
                (get_dex_names_in_catalog self)) as H.
  pose proof (all_dex_from_exact self (get_dex_names self)) as Hx.
  unfold get_all_dex.
  destruct (all_dex_from self (get_dex_names self)) as [bs e].
  simpl in Hx. destruct H as [Hall [Hlen _]]. destruct Hx as [Hnone Hsome].
  split; [exact Hall|]. split; [exact Hlen|]. split; [exact Hnone|].
  intros x Hx. destruct (Hsome x Hx) as [n [Hnth Hraise]].
  exists n. split; [exact Hnth|]. split; [exact Hraise|].
  destruct (get_file_raises self n x Hraise) as [->| ->]; [|reflexivity].
  apply get_file_absent in Hraise. exfalso. apply Hraise.
  apply get_dex_names_in_catalog. eapply nth_error_In. exact Hnth.
Qed.

(** X4.  When [get_all_dex] runs to its end, [is_multidex] is true
    exactly when it yielded two payloads or more. *)
Theorem is_multidex_get_all_dex self :
  snd (get_all_dex self) = None ->
  (is_multidex self = true <-> 2 <= List.length (fst (get_all_dex self))).
Proof.
  intros He. rewrite is_multidex_count.
  pose proof (all_dex_from_spec self (get_dex_names self)
                (get_dex_names_in_catalog self)) as H.
  unfold get_all_dex in *.
  destruct (all_dex_from self (get_dex_names self)) as [bs e].
  simpl in *. destruct H as [_ [Hlen _]]. apply Hlen in He. now rewrite He.
Qed.

Lemma is_multidex_get_all_dex_witness :
  is_multidex (new_apk (zip_of_names ["classes.dex"; "classes2.dex"])) = true
  <-> 2 <= List.length
        (fst (get_all_dex
                (new_apk (zip_of_names ["classes.dex"; "classes2.dex"])))).
Proof.
  apply (is_multidex_get_all_dex
           (new_apk (zip_of_names ["classes.dex"; "classes2.dex"]))).
  reflexivity.
Defined.

Lemma all_dex_from_In self b name : forall names,
  In name names ->
  get_file self name = Return b ->
  snd (all_dex_from self names) = None ->
  In b (fst (all_dex_from self names)).
Proof.
  induction names as [|n rest IH]; intros Hin Hb He; [contradiction|].
  simpl in *. destruct (get_file self n) as [b'|x] eqn:Hn; [|discriminate].
  destruct (all_dex_from self rest) as [bs e] eqn:Hrest. simpl in *.
  destruct Hin as [->|Hin].
  - left. congruence.
  - right. now apply IH.
Qed.

(** X5.  When the catalog has [classes.dex] and [get_all_dex] runs to
    its end, the bytes that [get_dex] returns are among the payloads
    that [get_all_dex] yields. *)
Theorem get_dex_in_get_all_dex self :
  In "classes.dex" (get_files self) ->
  snd (get_all_dex self) = None ->
  exists b, get_dex self = Return b /\ In b (fst (get_all_dex self)).
Proof.
  intros Hin He.
  assert (Hdex : In "classes.dex" (get_dex_names self)).
  { apply documented_name_kept; [exact Hin | reflexivity]. }
  destruct (get_file self "classes.dex") as [b|x] eqn:Hb.
  - exists b. split; [unfold get_dex; now rewrite Hb|].
    unfold get_all_dex in *. now apply (all_dex_from_In self b "classes.dex").
  - exfalso.
    pose proof (all_dex_from_spec self (get_dex_names self)
                  (get_dex_names_in_catalog self)) as H.
    unfold get_all_dex in He.
    destruct (all_dex_from self (get_dex_names self)) as [bs e].
    simpl in He. subst e. destruct H as [Hall [Hlen _]].
    assert (Hfull : List.length bs = List.length (get_dex_names self))
      by now apply Hlen.
    rewrite Hfull, List.firstn_all in Hall.
    clear Hlen Hfull.
    induction Hall as [|n b ns bs' Hnb Hall IH]; [contradiction|].
    destruct Hdex as [->|Hdex]; [congruence | now apply IH].
Qed.

Lemma get_dex_in_get_all_dex_witness :
  exists b,
    get_dex (new_apk (zip_of_names ["classes.dex"; "classes2.dex"]))
    = Return b
    /\ In b (fst (get_all_dex
                    (new_apk (zip_of_names ["classes.dex"; "classes2.dex"])))).
Proof.
  apply (get_dex_in_get_all_dex
           (new_apk (zip_of_names ["classes.dex"; "classes2.dex"]))).
  - simpl. tauto.
  - reflexivity.
Defined.

(** X6.  The read position of the stream given to [APK] affects the
    digest only.  The parser always gets the stream rewound to 0, so the
    call fails or succeeds, with the same exception or the same index,
    whatever the position was; [_sha256] is the digest of the bytes from
    the position on, which is the whole buffer only for position 0, and
    [filename] is ["raw_apk_sha256:"] followed by it. *)
Theorem APK_init_stream_position sha parse buf pos :
  match APK_init sha parse {| bio_buf := buf; bio_pos := pos |},
        APK_init sha parse {| bio_buf := buf; bio_pos := 0 |} with
  | Return a, Return a0 =>
      zip a = zip a0
      /\ files_crc32 a = ∅
      /\ _sha256 a = sha (skipn pos buf)
      /\ _sha256 a0 = sha buf
      /\ filename a = ("raw_apk_sha256:" +:+ _sha256 a)%string
  | Raise e, Raise e0 => e = e0
  | _, _ => False
  end.
Proof.
  unfold APK_init, bio_read, bio_seek0. simpl.
  destruct (parse {| bio_buf := buf; bio_pos := 0 |} true); simpl; auto.
Qed.

(** ** One request, case by case *)

(** A request either stores nothing, and then only adds its read to the
    trace, or it computes the checksum of the buffer it read for a name
    the cache lacked, stores it, and logs a mismatch if there is one and
    a logger to tell. *)
Lemma _get_crc32_cases ns name st :
  (self (snd (_get_crc32 ns name st)) = self st
   /\ trace (snd (_get_crc32 ns name st)) = trace st ++ [EvRead name])
  \/ exists f buf d,
       crc32 ns = Some f
       /\ zip_read (zip (self st)) name = Return buf
       /\ infolist_crc32 (zip (self st)) name = Return d
       /\ files_crc32 (self st) !! name = None
       /\ self (snd (_get_crc32 ns name st))
          = set_files_crc32 (self st)
              (<[name := f buf]> (files_crc32 (self st)))
       /\ trace (snd (_get_crc32 ns name st))
          = trace st ++ EvRead name :: EvCrc32 buf
              :: (if (f buf =? d)%Z then []
                  else match logger ns with
                       | Some _ => [EvLogError name d (f buf)]
                       | None => []
                       end).
Proof.
  unfold _get_crc32, getitem, zip_read, infolist_crc32. run.
  destruct (zip_lookup (zip (self st)) name) as [info|] eqn:Hz; simpl;
    [|now left].
  destruct (zi_data info) as [buf|]; simpl; [|now left].
  destruct (files_crc32 (self st) !! name) as [v|] eqn:Hc; simpl; [now left|].
  destruct (crc32 ns) as [f|]; simpl; [|now left].
  right. exists f, buf, (crc32_of_uncompressed_data info).
  assert (Hl : <[name := f buf]> (files_crc32 (self st)) !! name
               = Some (f buf)) by apply lookup_insert_eq.
  rewrite !Hl, ?Hz. simpl.
  repeat (split; [reflexivity|]).
  destruct (f buf =? crc32_of_uncompressed_data info)%Z; simpl.
  - split; [reflexivity|]. now rewrite <- app_assoc.
  - destruct (logger ns); simpl.
    + split; [reflexivity|]. now rewrite <- !app_assoc.
    + split; [reflexivity|]. now rewrite <- app_assoc.
Qed.

(** ** What every sequence of calls preserves *)

Section Preserved.

Variable ns : Namespace.
Variable P : state -> Prop.
Hypothesis P_request :
  forall name st, P st -> P (snd (_get_crc32 ns name st)).

Lemma preserved_for_each names : forall st,
  P st -> P (snd (for_each names (fun i => _get_crc32 ns i ;; ret tt) st)).
Proof.
  induction names as [|n names IH]; intros st HP; simpl; [exact HP|].
  unfold bind at 1. unfold bind at 1.
  pose proof (P_request n st HP) as H1.
  destruct (_get_crc32 ns n st) as [[b|e] st1]; simpl in *; [|exact H1].
  now apply IH.
Qed.

Lemma preserved_get_files_crc32 st :
  P st -> P (snd (get_files_crc32 ns st)).
Proof.
  intros HP. unfold get_files_crc32. run.
  destruct (decide (files_crc32 (self st) = ∅)) as [He|Hne]; [|exact HP].
  pose proof (preserved_for_each (get_files (self st)) st HP) as H.
  destruct (for_each _ _ st) as [[u|e] st1]; exact H.
Qed.

Lemma preserved_report_entry k st :
  P st -> P (snd (report_entry ns k st)).
Proof.
  intros HP. unfold report_entry, getitem. run.
  destruct (get_files_types ns) as [types|]; simpl; [|exact HP].
  destruct (types !! k) as [t|]; simpl; [|exact HP].
  pose proof (preserved_get_files_crc32 st HP) as H.
  destruct (get_files_crc32 ns st) as [[m|e] st1]; simpl in *; [|exact H].
  destruct (m !! k); exact H.
Qed.

Lemma preserved_gen_drain todo : forall st,
  P st -> P (snd (gen_drain ns todo st)).
Proof.
  induction todo as [|k rest IH]; intros st HP; simpl; [exact HP|].
  pose proof (preserved_report_entry k st HP) as H.
  destruct (report_entry ns k st) as [[tup|x] st1]; simpl in *; [|exact H].
  specialize (IH st1 H).
  destruct (gen_drain ns rest st1) as [[ts e] st2]. exact IH.
Qed.

Lemma preserved_after c st : P st -> P (after ns c st).
Proof.
  intros HP. destruct c; simpl.
  - now apply P_request.
  - now apply preserved_get_files_crc32.
  - now apply preserved_gen_drain.
Qed.

Lemma preserved_run calls : forall st, P st -> P (run ns calls st).
Proof.
  unfold run. induction calls as [|c calls IH]; intros st HP; simpl;
    [exact HP|].
  apply IH. now apply preserved_after.
Qed.

End Preserved.

(** ** Requests for names outside the catalog *)

(** X7.  For a name that is not in the catalog, [_get_crc32] raises the
    parser's [KeyError] as it is, where [get_file] raises
    [FileNotPresent]; the request has read through the parser once and
    has changed nothing in the object. *)
Theorem _get_crc32_absent ns name st :
  ~ In name (get_files (self st)) ->
  _get_crc32 ns name st
  = (Raise (KeyError name),
     {| self := self st; trace := trace st ++ [EvRead name] |})
  /\ get_file (self st) name = Raise (FileNotPresent name).
Proof.
  intros Habs. split; [|now apply get_file_absent].
  apply zip_lookup_None in Habs.
  unfold _get_crc32, zip_read. run. now rewrite Habs.
Qed.

Lemma _get_crc32_absent_witness :
  _get_crc32 module_namespace "lib/x.so" (fresh (zip_of_names ["a"]))
  = (Raise (KeyError "lib/x.so"),
     {| self := new_apk (zip_of_names ["a"]); trace := [EvRead "lib/x.so"] |})
  /\ get_file (new_apk (zip_of_names ["a"])) "lib/x.so"
     = Raise (FileNotPresent "lib/x.so").
Proof.
  apply (_get_crc32_absent module_namespace "lib/x.so"
           (fresh (zip_of_names ["a"]))).
  simpl. intros [H|H]; [discriminate H | exact H].
Defined.

(** X8.  The buffer that a request returns is the one [get_file] returns
    for the name, before the request and after it. *)
Theorem _get_crc32_buffer ns name st b :
  fst (_get_crc32 ns name st) = Return b ->
  get_file (self st) name = Return b
  /\ get_file (self (snd (_get_crc32 ns name st))) name = Return b.
Proof.
  intros H.
  destruct (_get_crc32_post ns name st) as [[Hz _] [_ [_ Hb]]].
  destruct (Hb b H) as [Hread _].
  unfold get_file. rewrite Hz, Hread. auto.
Qed.

Lemma _get_crc32_buffer_witness :
  get_file (self partial_state) "a" = Return [Byte.x61]
  /\ get_file (self (snd (_get_crc32 module_namespace "a" partial_state))) "a"
     = Return [Byte.x61].
Proof.
  apply (_get_crc32_buffer module_namespace "a" partial_state [Byte.x61]).
  vm_compute. reflexivity.
Defined.

(** ** The source as it is: [crc32] is not bound *)

Lemma count_crc32_app tr1 tr2 :
  count_crc32 (tr1 ++ tr2) = (count_crc32 tr1 + count_crc32 tr2)%nat.
Proof. unfold count_crc32. now rewrite List.filter_app, List.length_app. Qed.

Lemma count_logs_app tr1 tr2 :
  count_logs (tr1 ++ tr2) = (count_logs tr1 + count_logs tr2)%nat.
Proof. unfold count_logs. now rewrite List.filter_app, List.length_app. Qed.

Lemma count_logs_of_app n tr1 tr2 :
  count_logs_of n (tr1 ++ tr2)
  = (count_logs_of n tr1 + count_logs_of n tr2)%nat.
Proof. unfold count_logs_of. now rewrite List.filter_app, List.length_app. Qed.

Lemma count_all_reads_app tr1 tr2 :
  count_all_reads (tr1 ++ tr2)
  = (count_all_reads tr1 + count_all_reads tr2)%nat.
Proof.
  unfold count_all_reads. now rewrite List.filter_app, List.length_app.
Qed.

Lemma unbound_request_keeps ns name st :
  crc32 ns = None ->
  self (snd (_get_crc32 ns name st)) = self st
  /\ count_crc32 (trace (snd (_get_crc32 ns name st))) = count_crc32 (trace st)
  /\ count_logs (trace (snd (_get_crc32 ns name st))) = count_logs (trace st).
Proof.
  intros Hns.
  destruct (_get_crc32_cases ns name st) as [[Hs Ht]|[f [buf [d [Hf _]]]]];
    [|congruence].
  rewrite Hs, Ht, count_crc32_app, count_logs_app.
  change (count_crc32 [EvRead name]) with 0.
  change (count_logs [EvRead name]) with 0.
  split; [reflexivity|]. split; lia.
Qed.

(** X9.  In the module as it is, where [crc32] is unbound, no sequence of
    requests, batch calls and reports ever changes the object: the cache
    stays as it was, no checksum is computed and no diagnostic is
    emitted. *)
Theorem module_cache_never_filled calls st :
  self (run module_namespace calls st) = self st
  /\ count_crc32 (trace (run module_namespace calls st))
     = count_crc32 (trace st)
  /\ count_logs (trace (run module_namespace calls st))
     = count_logs (trace st).
Proof.
  apply (preserved_run module_namespace
           (fun s => self s = self st
                     /\ count_crc32 (trace s) = count_crc32 (trace st)
                     /\ count_logs (trace s) = count_logs (trace st))).
  - intros name s [Hs [Hc Hl]].
    destruct (unbound_request_keeps module_namespace name s eq_refl)
      as [Hs' [Hc' Hl']].
    rewrite Hs', Hc', Hl'. auto.
  - auto.
Qed.

(** X10.  In the module as it is, a batch call on an empty cache over an
    archive that has entries never returns.  It reads the first entry:
    when the entry can be decompressed the call ends with [NameError] on
    [crc32], and when it is corrupt with the parser's exception for that
    entry; the cache stays empty. *)
Theorem module_get_files_crc32_raises st k rest :
  files_crc32 (self st) = ∅ ->
  get_files (self st) = k :: rest ->
  get_files_crc32 module_namespace st
  = (Raise (match zip_read (zip (self st)) k with
            | Return _ => NameError "crc32"
            | Raise x => x
            end),
     {| self := self st; trace := trace st ++ [EvRead k] |})
  /\ (forall x, zip_read (zip (self st)) k = Raise x -> x = MalformedEntry k).
Proof.
  intros Hempty Hnames.
  assert (Hin : In k (namelist (zip (self st))))
    by (unfold get_files in Hnames; rewrite Hnames; now left).
  destruct (zip_lookup_In _ _ Hin) as [info Hinfo].
  split.
  - unfold get_files_crc32. run.
    destruct (decide (files_crc32 (self st) = ∅)) as [_|Hne];
      [|contradiction].
    rewrite Hnames. simpl.
    unfold _get_crc32, zip_read. run. rewrite Hinfo.
    destruct (zi_data info) as [buf|]; simpl; [|reflexivity].
    now rewrite Hempty, lookup_empty.
  - unfold zip_read. rewrite Hinfo.
    destruct (zi_data info); [discriminate|]. intros x Hx. now inversion Hx.
Qed.

Lemma module_get_files_crc32_raises_witness :
  get_files_crc32 module_namespace (fresh zip_mismatch)
  = (Raise (NameError "crc32"),
     {| self := new_apk zip_mismatch; trace := [EvRead "a"] |})
  /\ (forall x, zip_read zip_mismatch "a" = Raise x -> x = MalformedEntry "a").
Proof.
  apply (module_get_files_crc32_raises (fresh zip_mismatch) "a" ["b"]);
    reflexivity.
Defined.

(** The same call over an archive whose first entry is corrupt. *)
Example module_get_files_crc32_corrupt_first :
  fst (get_files_crc32 module_namespace
         (fresh {| zip_index :=
                     [ {| zi_filename := "b";
                          crc32_of_uncompressed_data := 0;
                          zi_data := None |} ] |}))
  = Raise (MalformedEntry "b").
Proof. reflexivity. Qed.

(** ** Invariants of the cache and of the trace *)

Lemma request_zip ns name st :
  zip (self (snd (_get_crc32 ns name st))) = zip (self st).
Proof. apply _get_crc32_extends. Qed.

Lemma sound_request ns z name st :
  zip (self st) = z /\ map_Forall (computed ns z) (files_crc32 (self st)) ->
  zip (self (snd (_get_crc32 ns name st))) = z
  /\ map_Forall (computed ns z)
       (files_crc32 (self (snd (_get_crc32 ns name st)))).
Proof.
  intros [Hz Hall]. split; [now rewrite request_zip|].
  destruct (_get_crc32_cases ns name st)
    as [[Hs _]|[f [buf [d [Hf [Hread [_ [_ [Hs _]]]]]]]]]; rewrite Hs.
  - exact Hall.
  - simpl. apply map_Forall_insert_2; [|exact Hall].
    exists f, buf. rewrite <- Hz. auto.
Qed.

(** X11.  Whatever calls were made on a new object, every checksum in
    [files_crc32] is the value of [crc32] on the decompressed bytes of
    the entry of that name: a computed checksum, never a declared one,
    and only for names that can be read. *)
Theorem cache_holds_computed ns apk calls :
  map_Forall
    (fun k v =>
       exists f buf,
         crc32 ns = Some f
         /\ zip_read (zip apk) k = Return buf
         /\ v = f buf)
    (files_crc32 (self (run ns calls (start apk)))).
Proof.
  apply (preserved_run ns
           (fun s => zip (self s) = zip apk
                     /\ map_Forall (computed ns (zip apk))
                          (files_crc32 (self s)))).
  - intros name s. apply sound_request.
  - split; [reflexivity|]. apply map_Forall_empty.
Qed.

Lemma counted_request ns name st :
  count_crc32 (trace st) = size (files_crc32 (self st)) ->
  count_crc32 (trace (snd (_get_crc32 ns name st)))
  = size (files_crc32 (self (snd (_get_crc32 ns name st)))).
Proof.
  intros H.
  destruct (_get_crc32_cases ns name st)
    as [[Hs Ht]|[f [buf [d [_ [_ [_ [Hnone [Hs Ht]]]]]]]]]; rewrite Hs, Ht.
  - rewrite count_crc32_app. change (count_crc32 [EvRead name]) with 0. lia.
  - simpl. rewrite (map_size_insert_None _ _ _ Hnone), count_crc32_app, H.
    assert (Hone : forall l,
              (l = [] \/ l = [EvLogError name d (f buf)]) ->
              count_crc32 (EvRead name :: EvCrc32 buf :: l) = 1)
      by (intros l [->| ->]; reflexivity).
    rewrite Hone; [lia|].
    destruct (f buf =? d)%Z; [now left|].
    destruct (logger ns); [now right | now left].
Qed.

(** X12.  Whatever calls were made on a new object, [crc32] has been
    called exactly as many times as [files_crc32] has entries: every
    computation added a name, and no name was computed twice. *)
Theorem crc32_calls_are_cache_size ns apk calls :
  count_crc32 (trace (run ns calls (start apk)))
  = size (files_crc32 (self (run ns calls (start apk)))).
Proof.
  apply (preserved_run ns
           (fun s => count_crc32 (trace s) = size (files_crc32 (self s)))).
  - intros name s. apply counted_request.
  - reflexivity.
Qed.

Lemma genuine_log_insert apk name v ev :
  files_crc32 apk !! name = None ->
  genuine_log apk ev ->
  genuine_log (set_files_crc32 apk (<[name := v]> (files_crc32 apk))) ev.
Proof.
  intros Hnone. destruct ev as [n|b|n d c]; simpl; try tauto.
  intros [Hd [Hc Hne]]. split; [exact Hd|]. split; [|exact Hne].
  rewrite lookup_insert_ne; [exact Hc|]. intros ->. congruence.
Qed.

Lemma logs_request ns name st :
  logs_inv st -> logs_inv (snd (_get_crc32 ns name st)).
Proof.
  intros [Hcount Hgen]. unfold logs_inv.
  destruct (_get_crc32_cases ns name st)
    as [[Hs Ht]|[f [buf [d [_ [_ [Hd [Hnone [Hs Ht]]]]]]]]]; rewrite Hs, Ht.
  - split.
    + intros n. rewrite count_logs_of_app.
      change (count_logs_of n [EvRead name]) with 0.
      destruct (Hcount n) as [H1 H2]. split; [lia|].
      intros Hn. rewrite (H2 Hn). reflexivity.
    + apply Forall_app. split; [exact Hgen|]. repeat constructor.
  - split.
    + intros n. rewrite count_logs_of_app. destruct (Hcount n) as [H1 H2].
      destruct (String.eqb name n) eqn:E.
      * apply String.eqb_eq in E. subst n. rewrite (H2 Hnone). simpl.
        rewrite lookup_insert_eq. split; [|discriminate].
        assert (Hle : forall l,
                  (l = [] \/ l = [EvLogError name d (f buf)]) ->
                  count_logs_of name (EvRead name :: EvCrc32 buf :: l) <= 1).
        { intros l [->| ->]; unfold count_logs_of; simpl;
            [lia | destruct (String.eqb name name); simpl; lia]. }
        apply Hle.
        destruct (f buf =? d)%Z; [now left|].
        destruct (logger ns); [now right | now left].
      * assert (Hno : forall l,
                  (l = [] \/ l = [EvLogError name d (f buf)]) ->
                  count_logs_of n (EvRead name :: EvCrc32 buf :: l) = 0).
        { intros l [->| ->]; unfold count_logs_of; simpl;
            [reflexivity | now rewrite E]. }
        rewrite Hno.
        2:{ destruct (f buf =? d)%Z; [now left|].
            destruct (logger ns); [now right | now left]. }
        apply String.eqb_neq in E. simpl. rewrite lookup_insert_ne by exact E.
        split; [lia|]. intros Hn. rewrite (H2 Hn). reflexivity.
    + apply Forall_app. split.
      * eapply Forall_impl; [exact Hgen|].
        intros ev. now apply genuine_log_insert.
      * constructor; [exact I|]. constructor; [exact I|].
        destruct (f buf =? d)%Z eqn:E; [constructor|].
        destruct (logger ns); [|constructor].
        constructor; [|constructor]. simpl. split; [exact Hd|].
        rewrite lookup_insert_eq. split; [reflexivity|].
        apply Z.eqb_neq. exact E.
Qed.

(** X13.  Whatever calls were made on a new object, the trace holds at
    most one mismatch diagnostic for any name, and each diagnostic names
    the checksum the index declares for the entry and the different
    checksum that [files_crc32] holds for it. *)
Theorem diagnostics_once_and_genuine ns apk calls :
  (forall n, count_logs_of n (trace (run ns calls (start apk))) <= 1)
  /\ Forall (genuine_log (self (run ns calls (start apk))))
       (trace (run ns calls (start apk))).
Proof.
  assert (H : logs_inv (run ns calls (start apk))).
  { apply (preserved_run ns logs_inv).
    - intros name s. apply logs_request.
    - split; [|constructor]. intros n.
      split; [unfold count_logs_of; simpl; lia | reflexivity]. }
  destruct H as [Hcount Hgen]. split; [|exact Hgen].
  intros n. apply Hcount.
Qed.

(** ** The batch and the report when everything is bound and readable *)

Lemma all_readable_read z n :
  all_readable z = true -> In n (namelist z) ->
  exists info buf,
    zip_lookup z n = Some info /\ zi_data info = Some buf
    /\ zip_read z n = Return buf.
Proof.
  intros Hall Hin. destruct (zip_lookup_In z n Hin) as [info Hinfo].
  destruct (zip_lookup_Some z n info Hinfo) as [_ Hmem].
  unfold all_readable in Hall. rewrite forallb_forall in Hall.
  specialize (Hall info Hmem).
  destruct (zi_data info) as [buf|] eqn:Hd; [|discriminate].
  exists info, buf. unfold zip_read. now rewrite Hinfo, Hd.
Qed.

(** A request for a readable entry, with the names bound, returns. *)
Lemma request_ok ns name st f info buf :
  crc32 ns = Some f -> logger ns = Some tt ->
  zip_lookup (zip (self st)) name = Some info ->
  zi_data info = Some buf ->
  exists st',
    _get_crc32 ns name st = (Return buf, st')
    /\ (forall k, is_Some (files_crc32 (self st') !! k)
                  <-> k = name \/ is_Some (files_crc32 (self st) !! k))
    /\ count_all_reads (trace st') = S (count_all_reads (trace st)).
Proof.
  intros Hf Hl Hz Hd.
  destruct (files_crc32 (self st) !! name) as [v|] eqn:Hc.
  - eexists. split.
    + rewrite (_get_crc32_hit ns name st v Hc). unfold zip_read.
      now rewrite Hz, Hd.
    + simpl. split.
      * intros k. split; [tauto|]. intros [->|H]; [eauto | exact H].
      * rewrite count_all_reads_app. unfold count_all_reads at 2. simpl. lia.
  - eexists. split; [apply (_get_crc32_miss ns name st f info buf); assumption|].
    simpl. split.
    + intros k. rewrite lookup_insert_is_Some.
      destruct (decide (name = k)) as [->|Hne]; [tauto|].
      split; [tauto|]. intros [->|H]; [contradiction|tauto].
    + rewrite count_all_reads_app.
      assert (Hone : forall l,
                (l = [] \/ l = [EvLogError name
                                  (crc32_of_uncompressed_data info) (f buf)]) ->
                count_all_reads (EvRead name :: EvCrc32 buf :: l) = 1)
        by (intros l [->| ->]; reflexivity).
      rewrite Hone; [lia|].
      destruct (f buf =? crc32_of_uncompressed_data info)%Z; auto.
Qed.

Lemma for_each_ok ns f names : forall st,
  crc32 ns = Some f -> logger ns = Some tt ->
  (forall n, In n names ->
     exists info buf,
       zip_lookup (zip (self st)) n = Some info /\ zi_data info = Some buf) ->
  exists st',
    for_each names (fun i => _get_crc32 ns i ;; ret tt) st = (Return tt, st')
    /\ zip (self st') = zip (self st)
    /\ (forall k, is_Some (files_crc32 (self st') !! k)
                  <-> In k names \/ is_Some (files_crc32 (self st) !! k))
    /\ count_all_reads (trace st')
       = (count_all_reads (trace st) + List.length names)%nat.
Proof.
  induction names as [|n names IH]; intros st Hf Hl Hin.
  - exists st. simpl. unfold ret. repeat split; try tauto; lia.
  - destruct (Hin n (or_introl eq_refl)) as [info [buf [Hz Hd]]].
    destruct (request_ok ns n st f info buf Hf Hl Hz Hd)
      as [st1 [Hreq [Hdom Hreads]]].
    assert (Hzip : zip (self st1) = zip (self st)).
    { pose proof (request_zip ns n st) as H. now rewrite Hreq in H. }
    destruct (IH st1 Hf Hl) as [st2 [Hrest [Hzip2 [Hdom2 Hreads2]]]].
    { intros m Hm. rewrite Hzip. apply Hin. now right. }
    exists st2. split.
    + simpl. unfold bind at 1. unfold bind at 1. rewrite Hreq. simpl.
      exact Hrest.
    + split; [congruence|]. split.
      * intros k. rewrite Hdom2, Hdom. simpl. intuition congruence.
      * rewrite Hreads2, Hreads. simpl. lia.
Qed.

Lemma for_each_app {A} (l1 l2 : list A) body : forall st,
  for_each (l1 ++ l2) body st
  = match for_each l1 body st with
    | (Return _, st1) => for_each l2 body st1
    | (Raise e, st1) => (Raise e, st1)
    end.
Proof.
  induction l1 as [|x l1 IH]; intros st; [reflexivity|].
  simpl. unfold bind.
  destruct (body x st) as [[u|e] st1]; [apply IH | reflexivity].
Qed.

Lemma batch_ok ns st f :
  crc32 ns = Some f -> logger ns = Some tt ->
  files_crc32 (self st) = ∅ ->
  all_readable (zip (self st)) = true ->
  exists st',
    get_files_crc32 ns st = (Return (files_crc32 (self st')), st')
    /\ zip (self st') = zip (self st)
    /\ (forall name, In name (get_files (self st)) ->
        files_crc32 (self st') !! name
        = Some (f (payload (zip (self st)) name)))
    /\ (forall name, is_Some (files_crc32 (self st') !! name) ->
        In name (get_files (self st)))
    /\ count_all_reads (trace st')
       = (count_all_reads (trace st) + List.length (get_files (self st)))%nat.
Proof.
  intros Hf Hl Hempty Hall.
  destruct (for_each_ok ns f (get_files (self st)) st Hf Hl)
    as [st' [Hloop [Hzip [Hdom Hreads]]]].
  { intros n Hn. destruct (all_readable_read _ n Hall Hn)
      as [info [buf [Hz [Hd _]]]]. eauto. }
  exists st'. split.
  { unfold get_files_crc32. run.
    destruct (decide (files_crc32 (self st) = ∅)) as [_|Hne];
      [|contradiction].
    destruct (for_each _ _ st) as [r s1] eqn:E.
    change (for_each (get_files (self st))
              (fun i => _get_crc32 ns i ;; ret tt) st = (r, s1)) in E.
    assert (Heq : (r, s1) = (Return tt, st')) by congruence.
    inversion Heq. subst. reflexivity. }
  split; [exact Hzip|].
  assert (Hsound : map_Forall (computed ns (zip (self st)))
                     (files_crc32 (self st'))).
  { pose proof (preserved_for_each ns
                  (fun s => zip (self s) = zip (self st)
                            /\ map_Forall (computed ns (zip (self st)))
                                 (files_crc32 (self s)))
                  (fun name s => sound_request ns (zip (self st)) name s)
                  (get_files (self st)) st) as H.
    rewrite Hloop in H. apply H. split; [reflexivity|].
    rewrite Hempty. apply map_Forall_empty. }
  split; [|split; [|exact Hreads]].
  - intros name Hin.
    assert (Hs : is_Some (files_crc32 (self st') !! name))
      by (apply Hdom; now left).
    destruct Hs as [v Hv]. rewrite Hv.
    destruct (Hsound name v Hv) as [f' [buf [Hf' [Hread ->]]]].
    unfold payload. rewrite Hread. congruence.
  - intros name Hs. apply Hdom in Hs. destruct Hs as [Hin|Hs]; [exact Hin|].
    rewrite Hempty, lookup_empty in Hs. now destruct Hs.
Qed.

(** X14.  With [crc32] and [logger] bound, an empty cache and an archive
    whose entries can all be decompressed, [get_files_crc32] returns a
    mapping that has exactly the names of the catalog, each with the
    checksum of its decompressed bytes, keeps that mapping as the cache,
    and has read each listed entry once. *)
Theorem get_files_crc32_complete ns st f :
  crc32 ns = Some f -> logger ns = Some tt ->
  files_crc32 (self st) = ∅ ->
  all_readable (zip (self st)) = true ->
  exists m st',
    get_files_crc32 ns st = (Return m, st')
    /\ files_crc32 (self st') = m
    /\ (forall name, In name (get_files (self st)) <-> is_Some (m !! name))
    /\ (forall name, In name (get_files (self st)) ->
        m !! name = Some (f (payload (zip (self st)) name)))
    /\ count_all_reads (trace st')
       = (count_all_reads (trace st) + List.length (get_files (self st)))%nat
    /\ get_files_crc32 ns st' = (Return m, st').
Proof.
  intros Hf Hl Hempty Hall.
  destruct (batch_ok ns st f Hf Hl Hempty Hall)
    as [st' [Hrun [Hzip [Hval [Hdom Hreads]]]]].
  exists (files_crc32 (self st')), st'.
  split; [exact Hrun|]. split; [reflexivity|].
  split; [|split; [exact Hval | split; [exact Hreads|]]].
  - intros name. split; [|apply Hdom].
    intros Hin. rewrite (Hval name Hin). eauto.
  - destruct (decide (files_crc32 (self st') = ∅)) as [He|Hne];
      [|now apply get_files_crc32_nonempty].
    assert (Hnil : get_files (self st') = []).
    { unfold get_files. rewrite Hzip. fold (get_files (self st)).
      destruct (get_files (self st)) as [|k rest] eqn:E; [reflexivity|].
      specialize (Hval k (or_introl eq_refl)).
      rewrite He, lookup_empty in Hval. discriminate. }
    unfold get_files_crc32. run.
    destruct (decide (files_crc32 (self st') = ∅)) as [_|Hne];
      [|contradiction].
    rewrite Hnil. simpl. now rewrite He.
Qed.

Lemma get_files_crc32_complete_witness :
  exists m st',
    get_files_crc32 (bound_namespace types_ab) (fresh zip_mismatch)
    = (Return m, st')
    /\ files_crc32 (self st') = m
    /\ (forall name, In name (get_files (self (fresh zip_mismatch)))
                     <-> is_Some (m !! name))
    /\ (forall name, In name (get_files (self (fresh zip_mismatch))) ->
        m !! name
        = Some (zlib_crc32 (payload (zip (self (fresh zip_mismatch))) name)))
    /\ count_all_reads (trace st')
       = (count_all_reads (trace (fresh zip_mismatch))
          + List.length (get_files (self (fresh zip_mismatch))))%nat
    /\ get_files_crc32 (bound_namespace types_ab) st' = (Return m, st').
Proof.
  apply (get_files_crc32_complete (bound_namespace types_ab)
           (fresh zip_mismatch) zlib_crc32); reflexivity.
Defined.

Lemma read_ok_lookup z n :
  (match zip_read z n with Return _ => true | Raise _ => false end) = true ->
  exists info buf, zip_lookup z n = Some info /\ zi_data info = Some buf.
Proof.
  unfold zip_read. destruct (zip_lookup z n) as [info|]; [|discriminate].
  destruct (zi_data info) as [buf|] eqn:Hd; [eauto | discriminate].
Qed.

(** X15.  A failed batch call can leave a partial cache that the next
    call returns as if it were complete.  With the names bound and an
    empty cache, when the catalog starts with entries that can be read
    and then has a corrupt one, [get_files_crc32] raises the parser's
    exception for the corrupt entry and keeps the checksums of the
    entries before it; called again, it raises nothing and returns that
    mapping, which has no checksum for the corrupt entry. *)
Theorem get_files_crc32_failure_then_partial ns st f n pre k post :
  crc32 ns = Some f -> logger ns = Some tt ->
  files_crc32 (self st) = ∅ ->
  get_files (self st) = (n :: pre) ++ k :: post ->
  forallb (fun x => match zip_read (zip (self st)) x with
                    | Return _ => true
                    | Raise _ => false
                    end) (n :: pre) = true ->
  zip_read (zip (self st)) k = Raise (MalformedEntry k) ->
  exists st1,
    get_files_crc32 ns st = (Raise (MalformedEntry k), st1)
    /\ (forall name, is_Some (files_crc32 (self st1) !! name)
                     <-> In name (n :: pre))
    /\ get_files_crc32 ns st1 = (Return (files_crc32 (self st1)), st1).
Proof.
  intros Hf Hl Hempty Hnames Hok Hbad.
  rewrite forallb_forall in Hok.
  destruct (for_each_ok ns f (n :: pre) st Hf Hl)
    as [st1 [Hloop [Hzip [Hdom Hreads]]]].
  { intros x Hx. apply read_ok_lookup. now apply Hok. }
  assert (Hk : files_crc32 (self st1) !! k = None).
  { destruct (files_crc32 (self st1) !! k) as [v|] eqn:E; [|reflexivity].
    assert (Hs : is_Some (files_crc32 (self st1) !! k)) by eauto.
    apply Hdom in Hs. destruct Hs as [Hin|Hs].
    - specialize (Hok k Hin). rewrite Hbad in Hok. discriminate.
    - rewrite Hempty, lookup_empty in Hs. now destruct Hs. }
  assert (Hreq : _get_crc32 ns k st1
                 = (Raise (MalformedEntry k),
                    {| self := self st1; trace := trace st1 ++ [EvRead k] |})).
  { unfold _get_crc32. run. now rewrite Hzip, Hbad. }
  exists {| self := self st1; trace := trace st1 ++ [EvRead k] |}.
  split; [|split].
  - unfold get_files_crc32. run.
    destruct (decide (files_crc32 (self st) = ∅)) as [_|Hne];
      [|contradiction].
    destruct (for_each (get_files (self st)) _ st) as [r s1] eqn:E.
    change (for_each (get_files (self st))
              (fun i => _get_crc32 ns i ;; ret tt) st = (r, s1)) in E.
    rewrite Hnames, for_each_app, Hloop in E.
    simpl in E. unfold bind at 1 2 in E. rewrite Hreq in E.
    inversion E. reflexivity.
  - intros name. cbn [self]. rewrite Hdom, Hempty, lookup_empty.
    split; [intros [H|H]; [exact H | now destruct H] | tauto].
  - apply get_files_crc32_nonempty. simpl. intros He.
    assert (Hs : is_Some (files_crc32 (self st1) !! n))
      by (apply Hdom; left; now left).
    rewrite He, lookup_empty in Hs. now destruct Hs.
Qed.

Lemma get_files_crc32_failure_then_partial_witness :
  exists st1,
    get_files_crc32 (bound_namespace types_ab) (fresh zip_corrupt)
    = (Raise (MalformedEntry "b"), st1)
    /\ (forall name, is_Some (files_crc32 (self st1) !! name)
                     <-> In name ["a"])
    /\ get_files_crc32 (bound_namespace types_ab) st1
       = (Return (files_crc32 (self st1)), st1).
Proof.
  apply (get_files_crc32_failure_then_partial (bound_namespace types_ab)
           (fresh zip_corrupt) zlib_crc32 "a" [] "b" []); reflexivity.
Defined.

(** With a cache that is not empty, one tuple of the report only looks
    up the type and the cached checksum. *)
Lemma report_entry_cached ns types k t st :
  get_files_types ns = Some types ->
  types !! k = Some t ->
  files_crc32 (self st) <> ∅ ->
  report_entry ns k st
  = (match files_crc32 (self st) !! k with
     | Some c => Return (k, t, c)
     | None => Raise (KeyError k)
     end, st).
Proof.
  intros Ht Hk Hne. unfold report_entry, getitem.
  unfold bind, load_attr, lift. rewrite Ht. unfold ret at 1. rewrite Hk.
  rewrite (get_files_crc32_nonempty ns st Hne).
  now destruct (files_crc32 (self st) !! k).
Qed.

Lemma gen_drain_cached ns types : forall todo st,
  get_files_types ns = Some types ->
  files_crc32 (self st) <> ∅ ->
  all_typed types todo = true ->
  all_cached (files_crc32 (self st)) todo = true ->
  gen_drain ns todo st
  = (List.map (tuple_of types (files_crc32 (self st))) todo, None, st).
Proof.
  induction todo as [|k rest IH]; intros st Ht Hne Htyped Hcached;
    [reflexivity|].
  simpl in Htyped, Hcached.
  apply andb_true_iff in Htyped. destruct Htyped as [Hk Htyped].
  apply andb_true_iff in Hcached. destruct Hcached as [Hc Hcached].
  destruct (types !! k) as [t|] eqn:Etk; [|discriminate].
  destruct (files_crc32 (self st) !! k) as [c|] eqn:Eck; [|discriminate].
  rewrite gen_drain_cons, (report_entry_cached ns types k t st Ht Etk Hne).
  rewrite Eck, (IH st Ht Hne Htyped Hcached).
  assert (Htup : tuple_of types (files_crc32 (self st)) k = (k, t, c))
    by (unfold tuple_of; now rewrite Etk, Eck).
  simpl. now rewrite Htup.
Qed.



Lemma all_cached_complete (m : gmap string Z) names :
  (forall n, In n names -> is_Some (m !! n)) -> all_cached m names = true.
Proof.
  intros H. unfold all_cached. apply forallb_forall. intros n Hn.
  destruct (H n Hn) as [v Hv]. now rewrite Hv.
Qed.

(** X17.  With the three names bound, an empty cache, an archive whose
    entries can all be decompressed and a type for every name, the
    report runs to its end and yields one tuple for each name of the
    catalog, in order, with its type and the checksum of its
    decompressed bytes; the whole validation happens when the first
    tuple is pulled, and each listed entry is read once in all. *)
Theorem get_files_information_complete_report ns types st f :
  crc32 ns = Some f -> logger ns = Some tt ->
  get_files_types ns = Some types ->
  files_crc32 (self st) = ∅ ->
  all_readable (zip (self st)) = true ->
  all_typed types (get_files (self st)) = true ->
  exists st',
    get_files_information ns st
    = (List.map (fun n => (n, default "" (types !! n),
                           f (payload (zip (self st)) n)))
                (get_files (self st)),
       None, st')
    /\ count_all_reads (trace st')
       = (count_all_reads (trace st) + List.length (get_files (self st)))%nat.
Proof.
  intros Hf Hl Ht Hempty Hall Htyped.
  unfold get_files_information.
  destruct (get_files (self st)) as [|k rest] eqn:Hnames.
  { exists st. simpl. split; [reflexivity | lia]. }
  destruct (batch_ok ns st f Hf Hl Hempty Hall)
    as [st1 [Hrun [Hzip [Hval [_ Hreads]]]]].
  rewrite Hnames in Hval, Hreads.
  assert (Hk : files_crc32 (self st1) !! k = Some (f (payload (zip (self st)) k)))
    by (apply Hval; now left).
  assert (Hne : files_crc32 (self st1) <> ∅).
  { intros He. rewrite He, lookup_empty in Hk. discriminate. }
  pose proof Htyped as Htyped'. simpl in Htyped'.
  apply andb_true_iff in Htyped'. destruct Htyped' as [Htk Hrest].
  destruct (types !! k) as [t|] eqn:Etk; [|discriminate].
  exists st1. split; [|exact Hreads].
  rewrite gen_drain_cons.
  assert (Hfirst : report_entry ns k st
                   = (Return (k, t, f (payload (zip (self st)) k)), st1)).
  { unfold report_entry, getitem.
    unfold bind, load_attr, lift. rewrite Ht. unfold ret at 1. rewrite Etk.
    rewrite Hrun, Hk. reflexivity. }
  rewrite Hfirst.
  rewrite (gen_drain_cached ns types rest st1 Ht Hne Hrest).
  2:{ apply all_cached_complete. intros n Hn.
      rewrite (Hval n (or_intror Hn)). eauto. }
  simpl. rewrite Etk. simpl. f_equal. f_equal. f_equal.
  apply List.map_ext_in. intros n Hn. unfold tuple_of.
  now rewrite (Hval n (or_intror Hn)).
Qed.

Lemma get_files_information_complete_report_witness :
  exists st',
    get_files_information (bound_namespace types_ab) (fresh zip_mismatch)
    = (List.map (fun n => (n, default "" (types_ab !! n),
                           zlib_crc32
                             (payload (zip (self (fresh zip_mismatch))) n)))
                (get_files (self (fresh zip_mismatch))),
       None, st')
    /\ count_all_reads (trace st')
       = (count_all_reads (trace (fresh zip_mismatch))
          + List.length (get_files (self (fresh zip_mismatch))))%nat.
Proof.
  apply (get_files_information_complete_report (bound_namespace types_ab)
           types_ab (fresh zip_mismatch) zlib_crc32); reflexivity.
Defined.
